(** * Recipe Explorer: the remote catalog client of [src/api.js]

    A shallow embedding of the six client operations of [src/api.js]
    (TheMealDB client of the Recipe Explorer CLI) together with the
    cache-or-fetch coordinator that wraps them, and the properties of the
    design document that can be stated over them.

    JavaScript values are decoded JSON trees; the network, the clock and
    the console are an explicit environment and an explicit trace. *)

From Equations Require Import Equations.
From stdpp Require Import gmap strings list pretty.
From Stdlib Require Import ZArith String List Lia.
Import ListNotations.

Local Open Scope string_scope.
Local Open Scope list_scope.
Local Open Scope Z_scope.

(** ** JavaScript values *)

(** A decoded JSON body.  Numbers are restricted to integers (the catalog
    only ever sends identifiers and names as strings); an object is the
    list of its own properties, looked up by name. *)
#[local] Unset Elimination Schemes.
Inductive json : Type :=
| JNull
| JBool (b : bool)
| JNum (n : Z)
| JStr (s : string)
| JArr (items : list json)
| JObj (fields : list (string * json)).
#[local] Set Elimination Schemes.

(** A JavaScript value is a JSON value or [undefined] (written [None]). *)
Definition jsval : Type := option json.

(** ToBoolean. *)
Definition truthy (v : json) : bool :=
  match v with
  | JNull => false
  | JBool b => b
  | JNum n => negb (n =? 0)
  | JStr s => negb (String.eqb s "")
  | JArr _ | JObj _ => true
  end.

Definition truthy_val (v : jsval) : bool :=
  match v with
  | Some x => truthy x
  | None => false
  end.

(** [v || d] for a default [d] that is a JSON value. *)
Definition or_else (v : jsval) (d : json) : json :=
  match v with
  | Some x => if truthy x then x else d
  | None => d
  end.

Fixpoint lookup_field (name : string) (fields : list (string * json)) : jsval :=
  match fields with
  | [] => None
  | (k, v) :: rest => if String.eqb k name then Some v else lookup_field name rest
  end.

(** [v.name] for a value [v] that is neither [null] nor [undefined], and a
    name that no prototype defines ([meals], [idMeal], [ok], [strCategory]):
    only objects have such a property. *)
Definition get_prop (v : json) (name : string) : jsval :=
  match v with
  | JObj fields => lookup_field name fields
  | _ => None
  end.

(** [v?.name]: optional chaining gives [undefined] on [null]. *)
Definition get_prop_opt (v : json) (name : string) : jsval :=
  match v with
  | JNull => None
  | _ => get_prop v name
  end.

(** [v[0]]: first element of an array, first character of a string,
    property ["0"] of an object. *)
Definition index0 (v : json) : jsval :=
  match v with
  | JArr items => head items
  | JStr (String c _) => Some (JStr (String c EmptyString))
  | JObj fields => lookup_field "0" fields
  | _ => None
  end.

(** [s.charAt(0)] *)
Definition charAt0 (s : string) : string :=
  match s with
  | EmptyString => EmptyString
  | String c _ => String c EmptyString
  end.

(** ** Errors, completions and the effect monad *)

Record js_error : Type := JsError { err_name : string; message : string }.

Definition Error (msg : string) : js_error := JsError "Error" msg.
Definition TypeError (msg : string) : js_error := JsError "TypeError" msg.
Definition ReferenceError (msg : string) : js_error := JsError "ReferenceError" msg.

(** How a call ends: it returns a value or throws (an async function
    resolves or rejects). *)
Inductive completion (A : Type) : Type :=
| Returned (a : A)
| Threw (e : js_error).
Arguments Returned {A} a.
Arguments Threw {A} e.

(** The six operation kinds of the catalog, each standing for its URL under
    [BASE_URL]; the parameter is the value spliced into the query string
    (through [encodeURIComponent] where the source applies it).

    A string of the model is a sequence of code units below 256, one per
    character.  No such string holds a surrogate, so [encodeURIComponent],
    which throws a URIError on a lone surrogate and on nothing else when
    given a string, accepts every string of the model: the arguments
    [query] and [ingredient] below range over the strings for which the
    request can be built. *)
Inductive request : Type :=
| SearchByName (query : string)          (* /search.php?s=  *)
| LookupById (id : string)               (* /lookup.php?i=  *)
| SearchByLetter (letter : string)       (* /search.php?f=  *)
| FilterByIngredient (ingredient : string) (* /filter.php?i= *)
| FilterByCategory (category : json)     (* /filter.php?c=  *)
| RandomPick.                            (* /random.php     *)

Inductive event : Type :=
| EvFetch (r : request)
| EvSleep (ms : Z)
| EvTimer (ms : Z)
| EvLog (text : string).

(** A [Response]: [resp_json] is what [await response.json()] gives. *)
Record response : Type := Response {
  resp_ok : bool;
  resp_status : Z;
  resp_json : js_error + json
}.

Inductive fetch_outcome : Type :=
| Rejects (e : js_error)
| Resolves (r : response).

(** The remote service: what the [n]-th call of a run answers, and how long
    (in ms) the promise built on that call takes to settle. *)
Record network : Type := Network {
  respond : nat -> request -> fetch_outcome;
  latency : nat -> request -> Z
}.

Record world : Type := World {
  fetches : nat;
  trace : list event
}.

Definition start : world := World 0 [].

Definition M (A : Type) : Type := world -> completion A * world.

Definition ret {A} (a : A) : M A := fun w => (Returned a, w).
Definition throw {A} (e : js_error) : M A := fun w => (Threw e, w).

Definition bind {A B} (m : M A) (k : A -> M B) : M B :=
  fun w =>
    match m w with
    | (Returned a, w') => k a w'
    | (Threw e, w') => (Threw e, w')
    end.

(** [try { body } catch (error) { handler }] *)
Definition try_catch {A} (body : M A) (handler : js_error -> M A) : M A :=
  fun w =>
    match body w with
    | (Threw e, w') => handler e w'
    | r => r
    end.

Declare Scope js_scope.
Delimit Scope js_scope with js.
Notation "x <- m ;; k" := (bind m (fun x => k))
  (at level 100, m at next level, right associativity) : js_scope.
Notation "m ;;; k" := (bind m (fun _ => k))
  (at level 100, right associativity) : js_scope.
Local Open Scope js_scope.

Definition emit (e : event) : M unit :=
  fun w => (Returned tt, World (fetches w) (trace w ++ [e])).

(** [console.log] / [console.error] *)
Definition log (text : string) : M unit := emit (EvLog text).

(** [await new Promise(resolve => setTimeout(resolve, ms))] *)
Definition sleep (ms : Z) : M unit := emit (EvSleep ms).

(** A pending promise: when it settles, and what settling it does. *)
Record promise (A : Type) : Type := Promise {
  settles_at : Z;
  settle : M A
}.
Arguments Promise {A} _ _.
Arguments settles_at {A} _.
Arguments settle {A} _.

Definition await {A} (p : promise A) : M A := settle p.

(** [fetch(url)]: the call is issued at once and numbered; the promise
    settles with the service's answer. *)
Definition fetch_promise (net : network) (req : request) : M (promise response) :=
  fun w =>
    let n := fetches w in
    (Returned (Promise (latency net n req)
                 (match respond net n req with
                  | Rejects e => throw e
                  | Resolves r => ret r
                  end)),
     World (S n) (trace w ++ [EvFetch req])).

(** [await fetch(url)] *)
Definition fetch (net : network) (req : request) : M response :=
  p <- fetch_promise net req ;; await p.

(** [await response.json()] *)
Definition json_of (r : response) : M json :=
  match resp_json r with
  | inl e => throw e
  | inr data => ret data
  end.

(** [v.name], which throws a TypeError when [v] is [null]. *)
Definition member (v : json) (name : string) : M jsval :=
  match v with
  | JNull => throw (TypeError ("Cannot read properties of null (reading '" +:+ name +:+ "')"))
  | _ => ret (get_prop v name)
  end.

(** ** [searchMealsByName] *)

(** The request is built inside the [try] by [encodeURIComponent(query)],
    which accepts every string of the model (see [request]). *)

Definition searchMealsByName (net : network) (query : string) : M json :=
  try_catch
    (response <- fetch net (SearchByName query) ;;
     if negb (resp_ok response) then
       throw (Error ("Error: " +:+ pretty (resp_status response)))
     else
       data <- json_of response ;;
       meals <- member data "meals" ;;
       ret (or_else meals (JArr [])))
    (fun error =>
       log "Failed to get meals:" ;;;
       ret (JArr [])).

(** ** [getMealById]: lookup with bounded retry *)

(** A [try] block of an async function can leave in three ways: with a
    value, with a thrown error (which the [catch] sees), or by returning a
    promise it did not await, which settles outside the [try]. *)
Definition return_value {A} (a : A) : M (A + M A) := ret (inl a).
Definition return_promise {A} (p : M A) : M (A + M A) := ret (inr p).

Definition try_catch_async {A} (body : M (A + M A)) (handler : js_error -> M A) : M A :=
  fun w =>
    match body w with
    | (Returned (inl a), w') => (Returned a, w')
    | (Returned (inr p), w') => p w'
    | (Threw e, w') => handler e w'
    end.

(** [data.meals ? data.meals[0] || null : null] *)
Definition first_meal (meals : jsval) : json :=
  match meals with
  | Some m => if truthy m then or_else (index0 m) JNull else JNull
  | None => JNull
  end.

(** [attempts] is an integer; the recursion stops because a retry needs
    [attempts > 1] and passes [attempts - 1]. *)
Equations? getMealById (net : network) (id : string) (attempts : Z) : M json
  by wf (Z.to_nat attempts) lt :=
getMealById net id attempts :=
  try_catch_async
    (response <- fetch net (LookupById id) ;;
     if negb (resp_ok response) then
       match Z_gt_dec attempts 1 with
       | left _ =>
           sleep 1000 ;;;
           return_promise (getMealById net id (attempts - 1))
       | right _ =>
           throw (Error ("Status " +:+ pretty (resp_status response)))
       end
     else
       data <- json_of response ;;
       meals <- member data "meals" ;;
       return_value (first_meal meals))
    (fun error =>
       match Z_gt_dec attempts 1 with
       | left _ =>
           sleep 1000 ;;;
           getMealById net id (attempts - 1)
       | right _ =>
           log ("Cannot find meal after " +:+ pretty attempts +:+ " attepmts") ;;;
           ret JNull
       end).
Proof.
  all: lia.
Qed.

(** ** [searchMealsByFirstLetter]: parallel fan-out and de-duplication *)

(** A JavaScript [Map]: entries in insertion order; [set] on a key that is
    present replaces the value and leaves the entry where it is. *)
Section JsMap.
Context {K V : Type} `{EqDecision K}.

Fixpoint map_set (m : list (K * V)) (k : K) (v : V) : list (K * V) :=
  match m with
  | [] => [(k, v)]
  | (k', v') :: rest =>
      if decide (k' = k) then (k', v) :: rest
      else (k', v') :: map_set rest k v
  end.

(** [new Map(entries)] *)
Definition new_Map (entries : list (K * V)) : list (K * V) :=
  fold_left (fun m e => map_set m (fst e) (snd e)) entries [].

(** [Array.from(m.values())] *)
Definition map_values (m : list (K * V)) : list V := map snd m.
End JsMap.

(** Keys of the de-duplication map.  [Map] compares keys with
    SameValueZero: primitives by value, objects and arrays by reference.
    Every object of a decoded body is a fresh reference, so an [idMeal]
    that is an object or an array is identified by the position of its
    record in the flattened list. *)
Inductive map_key : Type :=
| KNull
| KBool (b : bool)
| KNum (n : Z)
| KStr (s : string)
| KRef (pos : nat).

#[global] Instance map_key_eq_dec : EqDecision map_key.
Proof. solve_decision. Defined.

Definition key_of (pos : nat) (id : json) : map_key :=
  match id with
  | JNull => KNull
  | JBool b => KBool b
  | JNum n => KNum n
  | JStr s => KStr s
  | JArr _ | JObj _ => KRef pos
  end.

(** [meal => meal?.idMeal ? [meal.idMeal, meal] : [null, null]] *)
Definition entry_of (pos : nat) (meal : json) : map_key * json :=
  match get_prop_opt meal "idMeal" with
  | Some id => if truthy id then (key_of pos id, meal) else (KNull, JNull)
  | None => (KNull, JNull)
  end.

Definition is_null (v : json) : bool :=
  match v with
  | JNull => true
  | _ => false
  end.

(** [results.flat()]: one level; a partial result that is not an array
    (a truthy [meals] of another type) stays as a single element. *)
Definition flat (results : list json) : list json :=
  flat_map (fun r => match r with JArr items => items | v => [v] end) results.

(** [Array.from(new Map(all.map(...)).values()).filter(meal => meal !== null)] *)
Definition onlyOne (all : list json) : list json :=
  List.filter (fun meal => negb (is_null meal))
    (map_values (new_Map (imap entry_of all))).

(** The async arrow function run for one letter. *)
Definition letter_task (net : network) (letter : string) : M json :=
  try_catch
    (response <- fetch net (SearchByLetter (charAt0 letter)) ;;
     if negb (resp_ok response) then
       log ("There was an error with " +:+ letter +:+ ". Status: "
            +:+ pretty (resp_status response)) ;;;
       ret (JArr [])
     else
       info <- json_of response ;;
       meals <- member info "meals" ;;
       ret (or_else meals (JArr [])))
    (fun error =>
       log "An error was Occured" ;;;
       ret (JArr [])).

(** [await Promise.all(tasks)]: the results in the order of the tasks.
    The calls are issued in that order; their answers are handled here in
    the same order (only the interleaving of console lines is lost). *)
Fixpoint promise_all {A} (tasks : list (M A)) : M (list A) :=
  match tasks with
  | [] => ret []
  | t :: rest =>
      a <- t ;;
      others <- promise_all rest ;;
      ret (a :: others)
  end.

(** [letters] is an array of strings. *)
Definition searchMealsByFirstLetter (net : network) (letters : list string) : M json :=
  try_catch
    (results <- promise_all (map (letter_task net) letters) ;;
     let all := flat results in
     ret (JArr (onlyOne all)))
    (fun error =>
       log "Sorry there was an error" ;;;
       ret (JArr [])).

(** ** [getMealsByIngredient]: the call raced against a timer *)

Definition TIMEOUT_MAX : Z := 2147483647.

(** The delay [setTimeout] really uses in Node.js: a delay below 1 or
    above [TIMEOUT_MAX] is replaced by 1. *)
Definition setTimeout_delay (ms : Z) : Z :=
  if (1 <=? ms) && (ms <=? TIMEOUT_MAX) then ms else 1.

Definition timeout_message : string := "cant found recipe on time".
Definition took_too_long : json := JStr "took too long".
Definition unexpected_error : json := JStr "An unexpected error has been occurred".

(** [p.then(f)]; the time [f] takes is counted in the latency of the call. *)
Definition promise_then {A B} (p : promise A) (f : A -> M B) : promise B :=
  Promise (settles_at p) (bind (settle p) f).

(** [new Promise((_, reject) => setTimeout(() => reject(e), ms))] *)
Definition reject_after {A} (ms : Z) (e : js_error) : M (promise A) :=
  emit (EvTimer ms) ;;;
  ret (Promise (setTimeout_delay ms) (throw e)).

(** [Promise.race([p, q])]: the one that settles first; the other is
    abandoned, and what it does afterwards is not recorded.  When both
    settle at the same instant the first of the array is taken. *)
Definition race {A} (p q : promise A) : promise A :=
  if settles_at p <=? settles_at q then p else q.

(** The request is built inside the [try] by
    [encodeURIComponent(ingredient)], before the call and before the timer;
    it accepts every string of the model (see [request]). *)
Definition getMealsByIngredient (net : network) (ingredient : string) (timeoutMs : Z) : M json :=
  try_catch
    (pending <- fetch_promise net (FilterByIngredient ingredient) ;;
     let promise :=
       promise_then pending (fun result =>
         if negb (resp_ok result) then
           log ("Recipe can't be found. Status: " +:+ pretty (resp_status result)) ;;;
           ret (JArr [])
         else
           info <- json_of result ;;
           meals <- member info "meals" ;;
           ret (or_else meals (JArr []))) in
     time <- reject_after timeoutMs (Error timeout_message) ;;
     await (race promise time))
    (fun error =>
       if String.eqb (message error) timeout_message then
         ret took_too_long
       else
         log "Sorry, something went wrong: " ;;;
         ret unexpected_error).

(** ** [getRelatedRecipes] and [getRandomMeal] *)

(** Reading an identifier that no scope declares. *)
Definition unbound {A} (name : string) : M A :=
  throw (ReferenceError (name +:+ " is not defined")).

(** Reading a [const] above its declaration in the same block. *)
Definition uninitialized {A} (name : string) : M A :=
  throw (ReferenceError ("Cannot access '" +:+ name +:+ "' before initialization")).

(** [a === b] for two values decoded from different bodies: primitives by
    value, objects and arrays never equal. *)
Definition strict_eq (a b : jsval) : bool :=
  match a, b with
  | None, None => true
  | Some JNull, Some JNull => true
  | Some (JBool x), Some (JBool y) => Bool.eqb x y
  | Some (JNum x), Some (JNum y) => x =? y
  | Some (JStr x), Some (JStr y) => String.eqb x y
  | _, _ => false
  end.

(** [v.filter(keep)], a TypeError when [v] is not an array. *)
Fixpoint filterM (keep : json -> M bool) (items : list json) : M (list json) :=
  match items with
  | [] => ret []
  | x :: rest =>
      b <- keep x ;;
      kept <- filterM keep rest ;;
      ret (if b then x :: kept else kept)
  end.

Definition array_filter (v : jsval) (keep : json -> M bool) : M (list json) :=
  match v with
  | Some (JArr items) => filterM keep items
  | _ => throw (TypeError "ans.meals.filter is not a function")
  end.

(** [l.slice(0, limit)] *)
Definition slice0 (l : list json) (limit : Z) : list json :=
  if limit <? 0 then firstn (Z.to_nat (Z.of_nat (length l) + limit)) l
  else firstn (Z.to_nat limit) l.

(** Whether [ToString(v)], the first step of [encodeURIComponent(v)],
    throws.  A decoded object is converted by [Object.prototype.toString]
    unless it has a member of its own called [toString]: no member of a
    decoded value is callable, and the inherited [valueOf] returns the
    object itself, so the conversion ends in a TypeError.  An array is
    joined, converting every element that is not [null]. *)
Fixpoint to_string_throws (v : json) : bool :=
  match v with
  | JObj fields =>
      match lookup_field "toString" fields with
      | Some _ => true
      | None => false
      end
  | JArr items => existsb to_string_throws items
  | _ => false
  end.

(** [encodeURIComponent(v)]; the request keeps the value itself. *)
Definition encodeURIComponent (v : json) : M json :=
  if to_string_throws v then
    throw (TypeError "Cannot convert object to primitive value")
  else ret v.

(** The body that [getRelatedRecipes] and [getRandomMeal] share word for
    word.  [recipe_ref] and [limit_ref] say how the identifiers [recipe]
    and [limit] resolve in the enclosing function; [ans] is read above its
    declaration and [response] is declared nowhere. *)
Definition category_block (net : network) (recipe_ref : M json) (limit_ref : M Z)
  : M jsval :=
  recipe <- recipe_ref ;;
  ok <- member recipe "ok" ;;
  if truthy_val ok then
    strCategory <- member recipe "strCategory" ;;
    match strCategory with
    | Some category =>
        if truthy category then
          encoded <- encodeURIComponent category ;;
          promise <- fetch net (FilterByCategory encoded) ;;
          (if negb (resp_ok promise) then
             ans <- uninitialized (A := json) "ans" ;;
             status <- member ans "status" ;;
             throw (Error "category not found. status")
           else ret tt) ;;;
          response <- unbound (A := response) "response" ;;
          ans <- json_of response ;;
          meals <- member ans "meals" ;;
          filt <- array_filter meals (fun meal =>
                    mid <- member meal "idMeal" ;;
                    rid <- member recipe "idMeal" ;;
                    ret (negb (strict_eq mid rid))) ;;
          limit <- limit_ref ;;
          ret (Some (JArr (slice0 filt limit)))
        else ret None
    | None => ret None
    end
  else ret None.

Definition getRelatedRecipes (net : network) (recipe : json) (limit : Z) : M jsval :=
  try_catch
    (category_block net (ret recipe) (ret limit))
    (fun error =>
       log ("Error fetching related recipes: " +:+ message error) ;;;
       ret (Some (JArr []))).

Definition getRandomMeal (net : network) : M jsval :=
  try_catch
    (category_block net (unbound "recipe") (unbound "limit"))
    (fun error =>
       log ("Error fetching related recipes: " +:+ message error) ;;;
       ret (Some (JArr []))).

(** ** The cache store and the cache-or-fetch coordinator

    [src/app.js] wraps every client call in [cache.getCachedOrFetch]; the
    module [cache.js] itself is not part of the sources at hand, so this
    section follows the design document (sections 3, 4.1 and 4.2).  The
    persisted medium behind the store is left out. *)

(** Modelled from the spec: a cache entry of [cache.js], the value with the
    time it was stored and its time to live (data model, CacheEntry). *)
Record cache_entry : Type := CacheEntry {
  value : json;
  storedAt : Z;
  ttl : Z
}.

(** Modelled from the spec: the freshness test of [cache.js]; an entry with
    [now - storedAt > ttl] is treated as a miss. *)
Definition fresh (now : Z) (e : cache_entry) : bool :=
  negb (now - storedAt e >? ttl e).

(** Modelled from the spec: [get(key)] of the cache store of [cache.js], a
    plain lookup that does not look at the TTL. *)
Definition cache_get (key : string) (c : gmap string cache_entry) : option cache_entry :=
  c !! key.

(** Modelled from the spec: [put(key, value, ttl)] of the cache store of
    [cache.js], with overwrite semantics. *)
Definition cache_put (now : Z) (key : string) (v : json) (t : Z)
    (c : gmap string cache_entry) : gmap string cache_entry :=
  <[key := CacheEntry v now t]> c.

Section Coordinator.
(** The world the producer runs in, with its clock, and the fixed default
    TTL of the coordinator. *)
Context {W : Type} (clock : W -> Z) (DEFAULT_TTL : Z).

(** Modelled from the spec: [getCachedOrFetch(key, producer)] of
    [cache.js] (the coordinator's [getOrFetch]): a fresh entry is returned
    without calling the producer; otherwise the producer is called once,
    its result is stored under the key with the default TTL and returned;
    if it fails nothing is stored and the failure is passed on. *)
Definition getCachedOrFetch (key : string) (producer : W -> completion json * W)
    (st : gmap string cache_entry * W)
  : completion json * (gmap string cache_entry * W) :=
  let '(c, w) := st in
  let miss :=
    match producer w with
    | (Returned v, w') => (Returned v, (cache_put (clock w') key v DEFAULT_TTL c, w'))
    | (Threw e, w') => (Threw e, (c, w'))
    end in
  match cache_get key c with
  | Some e => if fresh (clock w) e then (Returned (value e), (c, w)) else miss
  | None => miss
  end.

(** Modelled from the spec: a hit of [cache.js], a call that finds a fresh
    entry under [key]; anything else is a miss. *)
Definition cache_hit (key : string) (st : gmap string cache_entry * W) : bool :=
  match cache_get key (fst st) with
  | Some e => fresh (clock (snd st)) e
  | None => false
  end.
End Coordinator.

(** ** Vocabulary of the properties *)

(** What [await fetch(req)] does to the world, whatever the answer. *)
Definition fetched (w : world) (req : request) : world :=
  World (S (fetches w)) (trace w ++ [EvFetch req]).

(** A remote call that fails: transport failure, non-ok status or a body
    that does not decode. *)
Definition call_fails (o : fetch_outcome) : bool :=
  match o with
  | Rejects _ => true
  | Resolves r =>
      negb (resp_ok r) || match resp_json r with inl _ => true | inr _ => false end
  end.

(** The world after a failed attempt of [getMealById] that is retried: the
    call, then the backoff interval. *)
Definition backoff (w : world) (id : string) : world :=
  World (S (fetches w)) (trace w ++ [EvFetch (LookupById id); EvSleep 1000]).

(** The world after a failed attempt that is not retried: the call, then
    the console line. *)
Definition gave_up (w : world) (id : string) (attempts : Z) : world :=
  World (S (fetches w))
    (trace w ++ [EvFetch (LookupById id);
                 EvLog ("Cannot find meal after " +:+ pretty attempts +:+ " attepmts")]).

(** [k] failed attempts in a row, each with attempts to spare. *)
Definition backoffs (k : nat) (w : world) (id : string) : world :=
  Nat.iter k (fun w' => backoff w' id) w.

(** A recipe record is a JSON object. *)
Definition is_object (v : json) : bool :=
  match v with
  | JObj _ => true
  | _ => false
  end.

(** A service that rejects every call. *)
Definition always_down : network :=
  Network (fun _ _ => Rejects (TypeError "fetch failed")) (fun _ _ => 30).

(** Sample records and services. *)
Definition arrabiata : json :=
  JObj [("idMeal", JStr "52771"); ("strMeal", JStr "Spicy Arrabiata Penne")].

(** A service whose first answer is a 503 and whose later answers hold one
    recipe. *)
Definition flaky_then_found : network :=
  Network
    (fun n _ =>
       match n with
       | O => Resolves (Response false 503 (inl (JsError "SyntaxError" "Unexpected end of JSON input")))
       | _ => Resolves (Response true 200 (inr (JObj [("meals", JArr [arrabiata])])))
       end)
    (fun _ _ => 30).


(** The partial result of one letter, read off the answer to its call. *)
Definition letter_result (o : fetch_outcome) : json :=
  match o with
  | Rejects _ => JArr []
  | Resolves r =>
      if negb (resp_ok r) then JArr []
      else match resp_json r with
           | inl _ => JArr []
           | inr JNull => JArr []
           | inr info => or_else (get_prop info "meals") (JArr [])
           end
  end.

(** The partial results of a fan-out whose first call is the [n]-th of the
    run, in fan-out order. *)
Fixpoint partials (net : network) (n : nat) (letters : list string) : list json :=
  match letters with
  | [] => []
  | letter :: rest =>
      letter_result (respond net n (SearchByLetter (charAt0 letter)))
      :: partials net (S n) rest
  end.

(** A call that succeeds with a body whose [meals] field is [null] or
    absent. *)
Definition list_missing (o : fetch_outcome) : bool :=
  match o with
  | Rejects _ => false
  | Resolves r =>
      resp_ok r &&
      match resp_json r with
      | inl _ => false
      | inr data =>
          negb (is_null data) &&
          match get_prop data "meals" with
          | None | Some JNull => true
          | Some _ => false
          end
      end
  end.

Definition beef_pie : json :=
  JObj [("idMeal", JStr "52874"); ("strMeal", JStr "Beef and Mustard Pie");
        ("strCategory", JStr "Beef")].

Definition beef_brisket : json :=
  JObj [("idMeal", JStr "52878"); ("strMeal", JStr "Beef and Oyster pie")].

(** A service that answers every call with the two recipes of a category. *)
Definition beef_service : network :=
  Network
    (fun _ _ => Resolves (Response true 200
                  (inr (JObj [("meals", JArr [beef_pie; beef_brisket])]))))
    (fun _ _ => 30).

(** A service that answers every call with [{"meals": null}]. *)
Definition no_match : network :=
  Network
    (fun _ _ => Resolves (Response true 200 (inr (JObj [("meals", JNull)]))))
    (fun _ _ => 30).

(** A service that answers every call with status 500. *)
Definition server_error : network :=
  Network
    (fun _ _ => Resolves (Response false 500
                  (inl (JsError "SyntaxError" "Unexpected token < in JSON"))))
    (fun _ _ => 30).


(** A producer that always fails, counting its invocations. *)
Definition failing_producer (calls : nat) : completion json * nat :=
  (Threw (TypeError "fetch failed"), S calls).

(** [meal?.idMeal] *)
Definition idMeal (meal : json) : jsval := get_prop_opt meal "idMeal".

(** Identifiers compared by value: booleans, numbers and strings. *)
Definition is_primitive (v : json) : bool :=
  match v with
  | JBool _ | JNum _ | JStr _ => true
  | _ => false
  end.

(** The map that [searchMealsByFirstLetter] builds from the flattened
    partial results. *)
Definition dedup_map (all : list json) : list (map_key * json) :=
  new_Map (imap entry_of all).

Definition crumble_a : json :=
  JObj [("idMeal", JStr "52893"); ("strMeal", JStr "Apple & Blackberry Crumble")].

Definition crumble_b : json :=
  JObj [("idMeal", JStr "52893"); ("strMeal", JStr "Blackberry Crumble")].

(** A service whose two answers hold a record with the same id. *)
Definition renamed_service : network :=
  Network
    (fun n _ =>
       match n with
       | O => Resolves (Response true 200 (inr (JObj [("meals", JArr [crumble_a])])))
       | _ => Resolves (Response true 200 (inr (JObj [("meals", JArr [crumble_b])])))
       end)
    (fun _ _ => 30).

(** The record a letter search gives in the next two services. *)
Definition meal_for (req : request) : json :=
  match req with
  | SearchByLetter letter => JObj [("idMeal", JStr letter)]
  | _ => JNull
  end.

(** A service whose second call is rejected. *)
Definition second_call_down : network :=
  Network
    (fun n req =>
       match n with
       | 1%nat => Rejects (TypeError "fetch failed")
       | _ => Resolves (Response true 200 (inr (JObj [("meals", JArr [meal_for req])])))
       end)
    (fun _ _ => 30).

Definition nameless : json := JObj [("strMeal", JStr "Nameless stew")].

(** A service whose answers hold a record without [idMeal]. *)
Definition idless_service : network :=
  Network
    (fun _ req =>
       Resolves (Response true 200
         (inr (JObj [("meals", JArr [nameless; meal_for req; nameless])]))))
    (fun _ _ => 30).

(** ** Vocabulary of the further properties *)

Definition is_fetch (e : event) : bool :=
  match e with
  | EvFetch _ => true
  | _ => false
  end.

Definition is_sleep (e : event) : bool :=
  match e with
  | EvSleep _ => true
  | _ => false
  end.

(** The calls issued and the backoff intervals waited in a stretch of the
    trace. *)
Definition count_fetches (t : list event) : nat := length (List.filter is_fetch t).
Definition count_sleeps (t : list event) : nat := length (List.filter is_sleep t).

(** An ok answer whose body decodes to the bare [null]. *)
Definition null_body (o : fetch_outcome) : bool :=
  match o with
  | Rejects _ => false
  | Resolves r =>
      resp_ok r && match resp_json r with inr JNull => true | _ => false end
  end.

(** A service whose first answer is the body [null] and whose later
    answers hold one recipe. *)
Definition null_then_found : network :=
  Network
    (fun n _ =>
       match n with
       | O => Resolves (Response true 200 (inr JNull))
       | _ => Resolves (Response true 200 (inr (JObj [("meals", JArr [arrabiata])])))
       end)
    (fun _ _ => 30).

(** [v.name()] for a decoded JSON value [v]: no member of such a value is
    a function, so the call throws a TypeError (after the TypeError of the
    property read itself when [v] is [null]). *)
Definition call_method (v : json) (name : string) : M json :=
  f <- member v name ;;
  throw (TypeError ("response." +:+ name +:+ " is not a function")).

(** The producer that [viewRecipeDetails] of [src/app.js] hands to the
    cache: [getMealById] with its default of two attempts, then
    [response.json()] on what it resolved to. *)
Definition viewRecipeDetails_producer (net : network) (recipeId : string) : M json :=
  response <- getMealById net recipeId 2 ;;
  data <- call_method response "json" ;;
  log "response: " ;;;
  ret data.

(** A service that answers every call with one recipe. *)
Definition arrabiata_service : network :=
  Network
    (fun _ _ => Resolves (Response true 200 (inr (JObj [("meals", JArr [arrabiata])]))))
    (fun _ _ => 30).



(** Two records with the same id and one without any. *)
Definition chicken_twice : network :=
  Network
    (fun _ _ => Resolves (Response true 200
       (inr (JObj [("meals", JArr [crumble_a; nameless; crumble_b])]))))
    (fun _ _ => 30).

(** The elements of a list in the order of their first occurrence: scan
    from the left and keep what has not been kept yet. *)
Section FirstOccurrences.
Context {K : Type} `{EqDecision K}.

Definition add_new (kept : list K) (k : K) : list K :=
  if in_dec (fun a b => decide (a = b)) k kept then kept else kept ++ [k].

Definition first_occurrences (l : list K) : list K := fold_left add_new l [].
End FirstOccurrences.

(** The id of a record when it is a string, and [""] otherwise. *)
Definition id_string (meal : json) : string :=
  match idMeal meal with
  | Some (JStr s) => s
  | _ => ""
  end.

(** Records as the catalog sends them: [idMeal] is a non-empty string. *)
Definition has_string_id (meal : json) : bool :=
  negb (String.eqb (id_string meal) "").

Definition apple_frangipan : json :=
  JObj [("idMeal", JStr "52768"); ("strMeal", JStr "Apple Frangipan Tart")].

Definition bakewell : json :=
  JObj [("idMeal", JStr "52767"); ("strMeal", JStr "Bakewell tart")].

(** A service that answers the letter [a] with two records and any other
    letter with one of them and a third. *)
Definition tart_service : network :=
  Network
    (fun _ req =>
       match req with
       | SearchByLetter "a" =>
           Resolves (Response true 200
             (inr (JObj [("meals", JArr [crumble_a; apple_frangipan])])))
       | _ =>
           Resolves (Response true 200
             (inr (JObj [("meals", JArr [bakewell; crumble_b])])))
       end)
    (fun _ _ => 30).

(** ** Vocabulary of the runs and of the merge *)

Definition is_log (e : event) : bool :=
  match e with
  | EvLog _ => true
  | _ => false
  end.





(** * Properties *)

(** ** Running the effect monad *)

Lemma bind_ret {A B} (a : A) (k : A -> M B) (w : world) :
  bind (ret a) k w = k a w.
Proof. reflexivity. Qed.

Lemma bind_throw {A B} (e : js_error) (k : A -> M B) (w : world) :
  bind (throw e) k w = (Threw e, w).
Proof. reflexivity. Qed.

Lemma bind_emit {B} (ev : event) (k : unit -> M B) (w : world) :
  bind (emit ev) k w = k tt (World (fetches w) (trace w ++ [ev])).
Proof. reflexivity. Qed.

Lemma fetch_run (net : network) (req : request) (w : world) :
  fetch net req w =
  (match respond net (fetches w) req with
   | Rejects e => Threw e
   | Resolves r => Returned r
   end, fetched w req).
Proof.
  unfold fetch, fetch_promise, bind, await; simpl.
  destruct (respond net (fetches w) req); reflexivity.
Qed.

Lemma member_not_null (v : json) (name : string) (w : world) :
  v <> JNull -> member v name w = (Returned (get_prop v name), w).
Proof. destruct v; intros H; try reflexivity; congruence. Qed.

Ltac run_js :=
  repeat first
    [ rewrite fetch_run
    | rewrite bind_emit
    | rewrite bind_ret
    | rewrite bind_throw
    | progress (unfold bind, try_catch, try_catch_async, return_value,
                return_promise, ret, throw, log, sleep, emit, json_of; simpl) ].

(** ** Retry: one attempt of [getMealById] *)

Lemma app_two {A} (l : list A) (x y : A) : (l ++ [x]) ++ [y] = l ++ [x; y].
Proof. rewrite <- app_assoc. reflexivity. Qed.

(** A failed attempt with attempts to spare: back off, then start again
    with one attempt less. *)
Lemma getMealById_retry (net : network) (id : string) (attempts : Z) (w : world) :
  call_fails (respond net (fetches w) (LookupById id)) = true ->
  attempts > 1 ->
  getMealById net id attempts w = getMealById net id (attempts - 1) (backoff w id).
Proof.
  intros Hf Hgt. rewrite (getMealById_equation_1 net id attempts).
  unfold try_catch_async. unfold bind at 1. rewrite fetch_run.
  unfold call_fails in Hf. unfold backoff, fetched, json_of.
  destruct (respond net (fetches w) (LookupById id)) as [e | r];
    [| destruct (resp_ok r); [destruct (resp_json r) as [e | data] |]];
    simpl in Hf; try discriminate;
    destruct (Z_gt_dec attempts 1); try lia;
    run_js; rewrite app_two; reflexivity.
Qed.

(** A failed last attempt: log and resolve to [null]. *)
Lemma getMealById_give_up (net : network) (id : string) (attempts : Z) (w : world) :
  call_fails (respond net (fetches w) (LookupById id)) = true ->
  attempts <= 1 ->
  getMealById net id attempts w = (Returned JNull, gave_up w id attempts).
Proof.
  intros Hf Hle. rewrite (getMealById_equation_1 net id attempts).
  unfold try_catch_async. unfold bind at 1. rewrite fetch_run.
  unfold call_fails in Hf. unfold gave_up, fetched, json_of.
  destruct (respond net (fetches w) (LookupById id)) as [e | r];
    [| destruct (resp_ok r); [destruct (resp_json r) as [e | data] |]];
    simpl in Hf; try discriminate;
    destruct (Z_gt_dec attempts 1); try lia;
    run_js; rewrite app_two; reflexivity.
Qed.

(** A successful attempt: the value computed from the decoded body. *)
Lemma getMealById_found (net : network) (id : string) (attempts : Z) (w : world)
    (r : response) (data : json) :
  respond net (fetches w) (LookupById id) = Resolves r ->
  resp_ok r = true ->
  resp_json r = inr data ->
  data <> JNull ->
  getMealById net id attempts w =
  (Returned (first_meal (get_prop data "meals")), fetched w (LookupById id)).
Proof.
  intros Hr Hok Hj Hn. rewrite getMealById_equation_1.
  unfold try_catch_async, bind at 1. rewrite fetch_run, Hr, Hok. simpl.
  unfold json_of. rewrite Hj. unfold bind at 1, ret at 1.
  unfold bind. rewrite (member_not_null _ _ _ Hn). reflexivity.
Qed.

Lemma backoffs_fetches (k : nat) (w : world) (id : string) :
  fetches (backoffs k w id) = (fetches w + k)%nat.
Proof.
  unfold backoffs. induction k as [| k IH]; simpl; [lia |].
  rewrite IH. lia.
Qed.

Lemma getMealById_retries (net : network) (id : string) (k : nat) :
  forall (attempts : Z) (w : world),
    Z.of_nat k < attempts ->
    (forall i, (i < k)%nat ->
       call_fails (respond net (fetches w + i) (LookupById id)) = true) ->
    getMealById net id attempts w =
    getMealById net id (attempts - Z.of_nat k) (backoffs k w id).
Proof.
  induction k as [| k IH]; intros attempts w Hlt Hfail.
  - simpl. rewrite Z.sub_0_r. reflexivity.
  - rewrite getMealById_retry; [| | lia].
    + rewrite (IH (attempts - 1) (backoff w id)); [| lia |].
      * unfold backoffs. rewrite Nat.iter_succ_r.
        f_equal. lia.
      * intros i Hi. simpl.
        replace (S (fetches w + i)) with (fetches w + S i)%nat by lia.
        apply Hfail. lia.
    + replace (fetches w) with (fetches w + 0)%nat by lia.
      apply Hfail. lia.
Qed.

(** With [n >= 1] attempts against a service that always fails, the lookup
    makes [n] calls and resolves to [null]. *)
Lemma getMealById_exhaustion (net : network) (id : string) (n : nat) (w : world) :
  (forall i, call_fails (respond net i (LookupById id)) = true) ->
  getMealById net id (Z.of_nat (S n)) w =
  (Returned JNull, gave_up (backoffs n w id) id 1).
Proof.
  intros Hfail.
  rewrite (getMealById_retries net id n); [| lia | intros; apply Hfail].
  replace (Z.of_nat (S n) - Z.of_nat n) with 1 by lia.
  apply getMealById_give_up; [apply Hfail | lia].
Qed.

(** C3. When every remote attempt fails (transport failure, non-ok status
    or undecodable body), [getMealById] called with [attempts = 2] makes
    exactly two calls, waits one backoff interval of 1000 ms between them,
    logs, and resolves to [null]: it returns, it does not throw. *)
Theorem getMealById_two_attempts_then_null (net : network) (id : string) (w : world) :
  (forall n, call_fails (respond net n (LookupById id)) = true) ->
  getMealById net id 2 w =
  (Returned JNull,
   World (fetches w + 2)
     (trace w ++ [EvFetch (LookupById id); EvSleep 1000;
                  EvFetch (LookupById id);
                  EvLog "Cannot find meal after 1 attepmts"])).
Proof.
  intros Hfail.
  rewrite getMealById_retry; [| apply Hfail | lia].
  rewrite getMealById_give_up; [| apply Hfail | lia].
  unfold gave_up, backoff; simpl.
  rewrite <- app_assoc. simpl.
  replace (S (S (fetches w))) with (fetches w + 2)%nat by lia.
  reflexivity.
Qed.

Lemma getMealById_two_attempts_then_null_witness :
  getMealById always_down "52772" 2 start =
  (Returned JNull,
   World 2 [EvFetch (LookupById "52772"); EvSleep 1000;
            EvFetch (LookupById "52772");
            EvLog "Cannot find meal after 1 attepmts"]).
Proof.
  apply (getMealById_two_attempts_then_null always_down "52772" start).
  intros n. reflexivity.
Defined.

(** C9. When a remote attempt of [getMealById] succeeds (after [k] failed
    attempts that each left attempts to spare), the call returns the first
    record of the decoded [meals] list, and [null] when that list is empty,
    [null] or absent. *)
Theorem getMealById_first_record_or_null (net : network) (id : string)
    (attempts : Z) (w : world) (k : nat) (r : response) (data : json) :
  (k = 0%nat \/ Z.of_nat k < attempts) ->
  (forall i, (i < k)%nat ->
     call_fails (respond net (fetches w + i) (LookupById id)) = true) ->
  respond net (fetches w + k) (LookupById id) = Resolves r ->
  resp_ok r = true ->
  resp_json r = inr data ->
  data <> JNull ->
  (forall records,
     get_prop data "meals" = Some (JArr records) ->
     forallb is_object records = true ->
     fst (getMealById net id attempts w) = Returned (hd JNull records)) /\
  (get_prop data "meals" = None \/ get_prop data "meals" = Some JNull ->
   fst (getMealById net id attempts w) = Returned JNull).
Proof.
  intros Hk Hfail Hr Hok Hj Hn.
  assert (Hrun : fst (getMealById net id attempts w) =
                 Returned (first_meal (get_prop data "meals"))).
  { assert (Hlast : forall a w',
              fetches w' = (fetches w + k)%nat ->
              fst (getMealById net id a w') =
              Returned (first_meal (get_prop data "meals"))).
    { intros a w' Hw'.
      rewrite (getMealById_found net id a w' r data); auto.
      rewrite Hw'. exact Hr. }
    destruct Hk as [-> | Hlt].
    - apply Hlast. lia.
    - rewrite (getMealById_retries net id k); auto.
      apply Hlast. apply backoffs_fetches. }
  split.
  - intros records Hm Hrec. rewrite Hrun, Hm.
    destruct records as [| m rest]; [reflexivity |].
    simpl in Hrec. destruct m; try discriminate. reflexivity.
  - intros [Hm | Hm]; rewrite Hrun, Hm; reflexivity.
Qed.

Lemma getMealById_first_record_or_null_witness :
  fst (getMealById flaky_then_found "52771" 2 start) = Returned arrabiata.
Proof.
  refine (proj1 (getMealById_first_record_or_null flaky_then_found "52771" 2 start 1
                   (Response true 200 (inr (JObj [("meals", JArr [arrabiata])])))
                   (JObj [("meals", JArr [arrabiata])]) _ _ _ _ _ _)
                [arrabiata] _ _).
  - right. reflexivity.
  - intros i Hi. assert (i = 0%nat) as -> by lia. reflexivity.
  - reflexivity.
  - reflexivity.
  - reflexivity.
  - discriminate.
  - reflexivity.
  - reflexivity.
Defined.

(** ** Fan-out: the partial results *)

Lemma letter_task_run (net : network) (letter : string) (w : world) :
  exists w',
    letter_task net letter w =
    (Returned (letter_result (respond net (fetches w) (SearchByLetter (charAt0 letter)))), w')
    /\ fetches w' = S (fetches w).
Proof.
  unfold letter_task, try_catch. unfold bind at 1. rewrite fetch_run.
  unfold letter_result, json_of, fetched.
  destruct (respond net (fetches w) (SearchByLetter (charAt0 letter))) as [e | r].
  - run_js. eexists; split; reflexivity.
  - destruct (resp_ok r); simpl.
    + destruct (resp_json r) as [e | info].
      * run_js. eexists; split; reflexivity.
      * destruct info; run_js; eexists; split; reflexivity.
    + run_js. eexists; split; reflexivity.
Qed.

Lemma promise_all_letters (net : network) (letters : list string) :
  forall w, exists w',
    promise_all (map (letter_task net) letters) w =
    (Returned (partials net (fetches w) letters), w')
    /\ fetches w' = (fetches w + length letters)%nat.
Proof.
  induction letters as [| letter rest IH]; intros w; simpl.
  - exists w. split; [reflexivity | lia].
  - destruct (letter_task_run net letter w) as (w1 & E1 & F1).
    destruct (IH w1) as (w2 & E2 & F2).
    exists w2. unfold bind. rewrite E1, E2, F1. split; [reflexivity | lia].
Qed.

(** The fan-out never takes its outer [catch]: it returns the
    de-duplicated concatenation of the partial results. *)
Lemma searchMealsByFirstLetter_run (net : network) (letters : list string) (w : world) :
  fst (searchMealsByFirstLetter net letters w) =
  Returned (JArr (onlyOne (flat (partials net (fetches w) letters)))).
Proof.
  unfold searchMealsByFirstLetter, try_catch, bind.
  destruct (promise_all_letters net letters w) as (w' & E & _).
  rewrite E. reflexivity.
Qed.

Lemma partials_all_empty (net : network) (letters : list string) :
  forall n,
    (forall i letter, letters !! i = Some letter ->
       list_missing (respond net (n + i) (SearchByLetter (charAt0 letter))) = true) ->
    flat (partials net n letters) = [].
Proof.
  induction letters as [| letter rest IH]; intros n H; [reflexivity |].
  simpl. rewrite (IH (S n)).
  - specialize (H 0%nat letter eq_refl). rewrite Nat.add_0_r in H.
    unfold list_missing in H. unfold letter_result.
    destruct (respond net n (SearchByLetter (charAt0 letter))) as [e | r];
      [discriminate |].
    destruct (resp_ok r); [| discriminate]. simpl in *.
    destruct (resp_json r) as [e | data]; [discriminate |].
    destruct data; try discriminate; simpl in *; try reflexivity.
    destruct (lookup_field "meals" fields) as [[] |]; try discriminate; reflexivity.
  - intros i l Hl. replace (S n + i)%nat with (n + S i)%nat by lia.
    apply H. exact Hl.
Qed.

(** ** The two operations that never reach the service's answer *)

(** C5. [getRandomMeal] reads the undeclared identifier [recipe] before
    anything else: it issues no call at all, logs, and returns the empty
    array, whatever the service would answer. *)
Theorem getRandomMeal_returns_empty_array (net : network) (w : world) :
  getRandomMeal net w =
  (Returned (Some (JArr [])),
   World (fetches w)
     (trace w ++ [EvLog "Error fetching related recipes: recipe is not defined"])).
Proof. reflexivity. Qed.

(** Whatever the recipe, the limit and the service, [getRelatedRecipes]
    returns [undefined] or the empty array. *)
Lemma getRelatedRecipes_undefined_or_empty (net : network) (recipe : json)
    (limit : Z) (w : world) :
  fst (getRelatedRecipes net recipe limit w) = Returned None \/
  fst (getRelatedRecipes net recipe limit w) = Returned (Some (JArr [])).
Proof.
  unfold getRelatedRecipes, category_block.
  destruct recipe; try (right; reflexivity); try (left; reflexivity).
  run_js.
  destruct (truthy_val (lookup_field "ok" fields)); [| left; reflexivity].
  destruct (lookup_field "strCategory" fields) as [category |]; [| left; reflexivity].
  destruct (truthy category); [| left; reflexivity].
  unfold encodeURIComponent.
  destruct (to_string_throws category); [right; reflexivity |].
  run_js.
  destruct (respond net (fetches w) (FilterByCategory category)) as [e | r];
    [right; reflexivity |].
  destruct (resp_ok r); right; reflexivity.
Qed.

(** C6. For a recipe as the catalog sends it (with a category, without an
    [ok] field) [getRelatedRecipes] issues no call and returns [undefined],
    although the category holds another recipe. *)
Theorem getRelatedRecipes_beef_pie_undefined :
  getRelatedRecipes beef_service beef_pie 3 start = (Returned None, start).
Proof. reflexivity. Qed.

(** ** Absent result lists *)

(** C8. When the call succeeds and the [meals] field of the decoded body
    is [null] or absent, search-by-name, search-by-letter and (when the
    answer arrives before the timer) filter-by-ingredient return the empty
    list. *)
Theorem missing_list_gives_empty_list (net : network) (w : world) :
  (forall query,
     list_missing (respond net (fetches w) (SearchByName query)) = true ->
     fst (searchMealsByName net query w) = Returned (JArr []))
  /\ (forall letters,
        (forall i letter, letters !! i = Some letter ->
           list_missing (respond net (fetches w + i)
                           (SearchByLetter (charAt0 letter))) = true) ->
        fst (searchMealsByFirstLetter net letters w) = Returned (JArr []))
  /\ (forall ingredient timeoutMs,
        list_missing (respond net (fetches w) (FilterByIngredient ingredient)) = true ->
        latency net (fetches w) (FilterByIngredient ingredient)
          < setTimeout_delay timeoutMs ->
        fst (getMealsByIngredient net ingredient timeoutMs w) = Returned (JArr [])).
Proof.
  split; [| split].
  - intros query H. unfold searchMealsByName, try_catch.
    unfold bind at 1. rewrite fetch_run. unfold list_missing in H.
    destruct (respond net (fetches w) (SearchByName query)) as [e | r];
      [discriminate |].
    destruct (resp_ok r); [| discriminate]. simpl in *.
    unfold json_of. destruct (resp_json r) as [e | data]; [discriminate |].
    destruct data; try discriminate; simpl in *; try reflexivity.
    unfold bind, member, ret; simpl.
    destruct (lookup_field "meals" fields) as [[] |]; try discriminate; reflexivity.
  - intros letters H. rewrite searchMealsByFirstLetter_run.
    rewrite partials_all_empty; [reflexivity | exact H].
  - intros ingredient timeoutMs H Hlat.
    unfold getMealsByIngredient, try_catch, fetch_promise, reject_after, race,
      promise_then, await.
    unfold bind at 1. simpl. unfold bind at 1. rewrite bind_emit. simpl.
    destruct (Z.leb_spec (latency net (fetches w) (FilterByIngredient ingredient))
                (setTimeout_delay timeoutMs)) as [_ | Hgt]; [| lia].
    simpl. unfold list_missing in H.
    destruct (respond net (fetches w) (FilterByIngredient ingredient)) as [e | r];
      [discriminate |].
    unfold bind at 1, ret at 1.
    destruct (resp_ok r); [| discriminate]. simpl in *.
    unfold json_of. destruct (resp_json r) as [e | data]; [discriminate |].
    destruct data; try discriminate; simpl in *; try reflexivity.
    unfold bind, member, ret; simpl.
    destruct (lookup_field "meals" fields) as [[] |]; try discriminate; reflexivity.
Qed.

Lemma missing_list_gives_empty_list_witness :
  fst (searchMealsByName no_match "zzz" start) = Returned (JArr [])
  /\ fst (searchMealsByFirstLetter no_match ["x"; "y"] start) = Returned (JArr [])
  /\ fst (getMealsByIngredient no_match "saffron" 5000 start) = Returned (JArr []).
Proof.
  destruct (missing_list_gives_empty_list no_match start) as (Hname & Hletter & Hing).
  split; [| split].
  - apply Hname. reflexivity.
  - apply Hletter. intros [| [| i]] letter Hl; try discriminate; reflexivity.
  - apply Hing; [reflexivity | reflexivity].
Defined.

(** ** Timeout race *)

Lemma getMealsByIngredient_timer_first (net : network) (ingredient : string)
    (timeoutMs : Z) (w : world) :
  setTimeout_delay timeoutMs < latency net (fetches w) (FilterByIngredient ingredient) ->
  fst (getMealsByIngredient net ingredient timeoutMs w) = Returned took_too_long.
Proof.
  intros Hlat.
  unfold getMealsByIngredient, try_catch, fetch_promise, reject_after, race,
    promise_then, await.
  unfold bind at 1. simpl. unfold bind at 1. rewrite bind_emit. simpl.
  destruct (Z.leb_spec (latency net (fetches w) (FilterByIngredient ingredient))
              (setTimeout_delay timeoutMs)) as [Hle | _]; [lia |].
  reflexivity.
Qed.

(** What the call gives when its answer arrives before the timer. *)
Lemma getMealsByIngredient_call_first (net : network) (ingredient : string)
    (timeoutMs : Z) (w : world) :
  latency net (fetches w) (FilterByIngredient ingredient) < setTimeout_delay timeoutMs ->
  fst (getMealsByIngredient net ingredient timeoutMs w) =
  Returned
    (let failure (e : js_error) :=
       if String.eqb (message e) timeout_message then took_too_long
       else unexpected_error in
     match respond net (fetches w) (FilterByIngredient ingredient) with
     | Rejects e => failure e
     | Resolves r =>
         if resp_ok r then
           match resp_json r with
           | inl e => failure e
           | inr JNull =>
               failure (TypeError "Cannot read properties of null (reading 'meals')")
           | inr info => or_else (get_prop info "meals") (JArr [])
           end
         else JArr []
     end).
Proof.
  intros Hlat.
  unfold getMealsByIngredient, try_catch, fetch_promise, reject_after, race,
    promise_then, await.
  unfold bind at 1. simpl. unfold bind at 1. rewrite bind_emit. simpl.
  destruct (Z.leb_spec (latency net (fetches w) (FilterByIngredient ingredient))
              (setTimeout_delay timeoutMs)) as [_ | Hgt]; [| lia].
  simpl.
  destruct (respond net (fetches w) (FilterByIngredient ingredient)) as [e | r].
  - run_js. destruct (String.eqb (message e) timeout_message); reflexivity.
  - unfold bind at 1, ret at 1. unfold json_of.
    destruct (resp_ok r); simpl; [| reflexivity].
    destruct (resp_json r) as [e | info].
    + run_js. destruct (String.eqb (message e) timeout_message); reflexivity.
    + destruct info; reflexivity.
Qed.






(** ** Cache-or-fetch coordinator *)

Section CoordinatorProperties.
Context {W : Type} (clock : W -> Z) (DEFAULT_TTL : Z).

Lemma fresh_later (e : cache_entry) (t t' : Z) :
  t <= t' -> fresh t e = false -> fresh t' e = false.
Proof.
  unfold fresh. intros Hle H.
  apply Bool.negb_false_iff in H. apply Bool.negb_false_iff.
  apply Z.gtb_lt in H. apply Z.gtb_lt. lia.
Qed.

Lemma cache_hit_later (key : string) (c : gmap string cache_entry) (w w2 : W) :
  clock w <= clock w2 ->
  cache_hit clock key (c, w) = false ->
  cache_hit clock key (c, w2) = false.
Proof.
  unfold cache_hit; simpl. intros Hle.
  destruct (cache_get key c) as [e |]; [| reflexivity].
  apply fresh_later. exact Hle.
Qed.

Lemma getCachedOrFetch_miss (key : string) (producer : W -> completion json * W)
    (c : gmap string cache_entry) (w : W) :
  cache_hit clock key (c, w) = false ->
  getCachedOrFetch clock DEFAULT_TTL key producer (c, w) =
  match producer w with
  | (Returned v, w') => (Returned v, (cache_put (clock w') key v DEFAULT_TTL c, w'))
  | (Threw e, w') => (Threw e, (c, w'))
  end.
Proof.
  unfold cache_hit, getCachedOrFetch; simpl.
  destruct (cache_get key c) as [e |]; [| reflexivity].
  intros ->. reflexivity.
Qed.

(** C7. If the producer that [getCachedOrFetch] invokes fails, the store
    is left as it was, the caller gets the producer's own error, and any
    later call on the same key is a miss again: it invokes its producer
    and ends as that producer does. *)
Theorem getCachedOrFetch_producer_failure (key : string)
    (producer : W -> completion json * W)
    (c : gmap string cache_entry) (w w1 : W) (e : js_error) :
  cache_hit clock key (c, w) = false ->
  producer w = (Threw e, w1) ->
  getCachedOrFetch clock DEFAULT_TTL key producer (c, w) = (Threw e, (c, w1))
  /\ forall (later : W -> completion json * W) (w2 : W),
       clock w <= clock w2 ->
       cache_hit clock key (c, w2) = false
       /\ getCachedOrFetch clock DEFAULT_TTL key later (c, w2) =
          match later w2 with
          | (Returned v, w3) =>
              (Returned v, (cache_put (clock w3) key v DEFAULT_TTL c, w3))
          | (Threw e', w3) => (Threw e', (c, w3))
          end.
Proof.
  intros Hmiss Hfail. split.
  - rewrite getCachedOrFetch_miss by exact Hmiss. rewrite Hfail. reflexivity.
  - intros later w2 Hle.
    pose proof (cache_hit_later key c w w2 Hle Hmiss) as Hmiss2.
    split; [exact Hmiss2 |].
    apply getCachedOrFetch_miss. exact Hmiss2.
Qed.
End CoordinatorProperties.

Lemma getCachedOrFetch_producer_failure_witness :
  getCachedOrFetch Z.of_nat 300000 "search_pie" failing_producer (∅, 0%nat)
  = (Threw (TypeError "fetch failed"), (∅, 1%nat))
  /\ getCachedOrFetch Z.of_nat 300000 "search_pie" failing_producer (∅, 1%nat)
     = (Threw (TypeError "fetch failed"), (∅, 2%nat)).
Proof.
  assert (Hmiss : cache_hit Z.of_nat "search_pie"
                    ((∅ : gmap string cache_entry), 0%nat) = false)
    by reflexivity.
  destruct (getCachedOrFetch_producer_failure Z.of_nat 300000 "search_pie"
              failing_producer ∅ 0%nat 1%nat (TypeError "fetch failed")
              Hmiss eq_refl) as [Hfirst Hlater].
  split; [exact Hfirst |].
  destruct (Hlater failing_producer 1%nat) as [_ Hagain]; [simpl; lia |].
  exact Hagain.
Defined.

(** ** The de-duplication map *)

Section JsMapProperties.
Context {K V : Type} `{EqDecision K}.
Implicit Types (m : list (K * V)) (k : K) (v : V).

Lemma map_set_keys_present m k v :
  List.In k (map fst m) -> map fst (map_set m k v) = map fst m.
Proof.
  induction m as [| [k' v'] rest IH]; simpl; [tauto |].
  intros Hin. destruct (decide (k' = k)) as [-> | Hne]; [reflexivity |].
  simpl. f_equal. apply IH. destruct Hin; [congruence | assumption].
Qed.

Lemma map_set_keys_fresh m k v :
  ~ List.In k (map fst m) -> map fst (map_set m k v) = map fst m ++ [k].
Proof.
  induction m as [| [k' v'] rest IH]; simpl; [reflexivity |].
  intros Hnin. destruct (decide (k' = k)) as [-> | Hne]; [tauto |].
  simpl. f_equal. apply IH. tauto.
Qed.

Lemma map_set_keys_incl m k v k' :
  List.In k' (map fst m) \/ k' = k -> List.In k' (map fst (map_set m k v)).
Proof.
  intros Hin.
  destruct (in_dec (fun a b => decide (a = b)) k (map fst m)) as [Hk | Hk].
  - rewrite map_set_keys_present by exact Hk.
    destruct Hin as [? | ->]; assumption.
  - rewrite map_set_keys_fresh by exact Hk.
    apply in_or_app. destruct Hin as [? | ->]; [left | right; left]; auto.
Qed.

Lemma map_set_NoDup m k v :
  List.NoDup (map fst m) -> List.NoDup (map fst (map_set m k v)).
Proof.
  intros Hnd.
  destruct (in_dec (fun a b => decide (a = b)) k (map fst m)) as [Hk | Hk].
  - rewrite map_set_keys_present by exact Hk. exact Hnd.
  - rewrite map_set_keys_fresh by exact Hk.
    apply List.NoDup_app; [exact Hnd | | ].
    + constructor; [simpl; tauto | constructor].
    + intros x Hx [<- | []]. exact (Hk Hx).
Qed.

(** After [set k0 v0], an entry is the new one or an old one under
    another key. *)
Lemma map_set_entries m k0 v0 k v :
  List.NoDup (map fst m) ->
  List.In (k, v) (map_set m k0 v0) ->
  (k = k0 /\ v = v0) \/ (k <> k0 /\ List.In (k, v) m).
Proof.
  induction m as [| [k' v'] rest IH]; simpl; intros Hnd Hin.
  - destruct Hin as [E | []]. left. split; congruence.
  - inversion Hnd as [| ? ? Hk' Hrest]; subst.
    destruct (decide (k' = k0)) as [-> | Hne]; simpl in Hin.
    + destruct Hin as [E | Hin]; [left; split; congruence |].
      right. split; [| right; exact Hin].
      intros ->. apply Hk'. apply (in_map fst _ _ Hin).
    + destruct Hin as [E | Hin].
      * right. split; [congruence | left; exact E].
      * destruct (IH Hrest Hin) as [? | [? ?]]; [left | right]; auto.
Qed.

Lemma new_Map_snoc (es : list (K * V)) k v :
  new_Map (es ++ [(k, v)]) = map_set (new_Map es) k v.
Proof. unfold new_Map. rewrite fold_left_app. reflexivity. Qed.

(** The keys of a [Map] are pairwise different. *)
Lemma new_Map_NoDup (es : list (K * V)) :
  List.NoDup (map fst (new_Map es)).
Proof.
  induction es as [| [k v] es IH] using rev_ind; [constructor |].
  rewrite new_Map_snoc. apply map_set_NoDup. exact IH.
Qed.

(** Every key given to the constructor is a key of the [Map]. *)
Lemma new_Map_keys (es : list (K * V)) k :
  List.In k (map fst es) -> List.In k (map fst (new_Map es)).
Proof.
  induction es as [| [k0 v0] es IH] using rev_ind; [tauto |].
  rewrite new_Map_snoc, map_app, in_app_iff. simpl. intros Hin.
  apply map_set_keys_incl. destruct Hin as [Hin | [<- | []]]; auto.
Qed.

(** Last write wins: the value a [Map] holds under a key is the one of
    the last entry given for that key. *)
Lemma new_Map_last (es : list (K * V)) k v :
  List.In (k, v) (new_Map es) ->
  exists e1 e2, es = e1 ++ (k, v) :: e2 /\ ~ List.In k (map fst e2).
Proof.
  induction es as [| [k0 v0] es IH] using rev_ind; [intros [] |].
  rewrite new_Map_snoc. intros Hin.
  apply map_set_entries in Hin; [| apply new_Map_NoDup].
  destruct Hin as [[-> ->] | [Hne Hin]].
  - exists es, []. split; [reflexivity | simpl; tauto].
  - destruct (IH Hin) as (e1 & e2 & -> & Hlast).
    exists e1, (e2 ++ [(k0, v0)]). split.
    + rewrite <- app_assoc. reflexivity.
    + rewrite map_app, in_app_iff. simpl. intros [? | [? | []]]; auto.
Qed.
End JsMapProperties.

(** ** De-duplication of the records *)

Lemma entry_of_cases (pos : nat) (meal : json) :
  (truthy_val (idMeal meal) = false /\ entry_of pos meal = (KNull, JNull))
  \/ (exists id, idMeal meal = Some id /\ truthy id = true
                 /\ entry_of pos meal = (key_of pos id, meal)).
Proof.
  unfold entry_of, idMeal.
  destruct (get_prop_opt meal "idMeal") as [id |]; simpl; [| left; auto].
  destruct (truthy id) eqn:Ht; [right; eauto | left; auto].
Qed.

Lemma idMeal_not_null (meal : json) (id : json) :
  idMeal meal = Some id -> is_null meal = false.
Proof. destruct meal; simpl; intros; congruence. Qed.

Lemma key_of_truthy (pos : nat) (id : json) :
  truthy id = true -> key_of pos id <> KNull.
Proof. destruct id; simpl; congruence. Qed.

(** The key of a primitive identifier does not depend on the position, and
    no other identifier has it. *)
Lemma key_of_primitive (pos pos' : nat) (id id' : json) :
  is_primitive id = true -> key_of pos' id' = key_of pos id -> id' = id.
Proof. destruct id, id'; simpl; congruence. Qed.

Lemma key_of_primitive_pos (pos pos' : nat) (id : json) :
  is_primitive id = true -> key_of pos' id = key_of pos id.
Proof. destruct id; simpl; congruence. Qed.

(** An entry that holds a record comes from that record, at some position
    of the flattened list, under the key of its identifier. *)
Lemma entry_of_record (all : list json) (k : map_key) (x : json) :
  List.In (k, x) (imap entry_of all) ->
  is_null x = false ->
  exists pos id,
    all !! pos = Some x /\ idMeal x = Some id /\ truthy id = true
    /\ k = key_of pos id.
Proof.
  intros Hin Hx. apply list_elem_of_In in Hin.
  apply elem_of_lookup_imap in Hin as (pos & y & E & Hy).
  destruct (entry_of_cases pos y) as [[_ E'] | (id & Hid & Ht & E')];
    rewrite E' in E; inversion E; subst.
  - discriminate.
  - exists pos, id. auto.
Qed.

Lemma dedup_map_entry (all : list json) (k : map_key) (x : json) :
  List.In (k, x) (dedup_map all) -> List.In (k, x) (imap entry_of all).
Proof.
  intros Hin. apply new_Map_last in Hin as (e1 & e2 & -> & _).
  apply in_or_app. right. left. reflexivity.
Qed.

Lemma onlyOne_dedup_map (all : list json) :
  onlyOne all =
  List.filter (fun meal => negb (is_null meal)) (map snd (dedup_map all)).
Proof. reflexivity. Qed.

Lemma kept_value (M : list (map_key * json)) (x : json) :
  List.In x (List.filter (fun meal => negb (is_null meal)) (map snd M)) ->
  exists k, List.In (k, x) M /\ is_null x = false.
Proof.
  rewrite filter_In, in_map_iff. intros [([k v] & E & Hin) Hx].
  simpl in E. subst v. exists k. split; [exact Hin |].
  apply Bool.negb_true_iff. exact Hx.
Qed.

(** Every record of the output carries a truthy [idMeal]. *)
Lemma onlyOne_has_id (all : list json) (x : json) :
  List.In x (onlyOne all) -> truthy_val (idMeal x) = true.
Proof.
  rewrite onlyOne_dedup_map. intros Hin.
  apply kept_value in Hin as (k & Hin & Hx).
  apply dedup_map_entry in Hin.
  apply entry_of_record in Hin as (pos & id & _ & Hid & Ht & _); [| exact Hx].
  rewrite Hid. exact Ht.
Qed.

(** For a primitive truthy identifier that occurs in [all]: the output
    holds exactly one record with it, the last one of [all]. *)
Lemma onlyOne_keeps_last (all : list json) (id m : json) :
  is_primitive id = true ->
  truthy id = true ->
  List.In m all ->
  idMeal m = Some id ->
  exists before r after i,
    onlyOne all = before ++ r :: after
    /\ idMeal r = Some id
    /\ (forall x, List.In x (before ++ after) -> idMeal x <> Some id)
    /\ all !! i = Some r
    /\ (forall j x, (i < j)%nat -> all !! j = Some x -> idMeal x <> Some id).
Proof.
  intros Hprim Htruthy Hm Hid.
  set (K := key_of 0 id).
  assert (Hentry : forall pos x, all !! pos = Some x -> idMeal x = Some id ->
                     List.In (K, x) (imap entry_of all)).
  { intros pos x Hpos Hx. apply list_elem_of_In, elem_of_lookup_imap.
    exists pos, x. split; [| exact Hpos].
    destruct (entry_of_cases pos x) as [[Hf _] | (id' & Hid' & _ & E)].
    - rewrite Hx in Hf. simpl in Hf. congruence.
    - rewrite E. rewrite Hx in Hid'. inversion Hid'; subst id'.
      unfold K. f_equal. apply key_of_primitive_pos. exact Hprim. }
  assert (Hrecord : forall k x, List.In (k, x) (dedup_map all) ->
                      is_null x = false -> idMeal x = Some id -> k = K).
  { intros k x Hin Hx Hidx. apply dedup_map_entry in Hin.
    apply entry_of_record in Hin as (pos & id' & _ & Hid' & _ & ->); [| exact Hx].
    rewrite Hidx in Hid'. inversion Hid'; subst id'.
    apply key_of_primitive_pos. exact Hprim. }
  (* the key is in the map *)
  apply list_elem_of_In, list_elem_of_lookup in Hm as [p Hp].
  pose proof (Hentry p m Hp Hid) as HinE.
  assert (HK : List.In K (map fst (dedup_map all))).
  { apply new_Map_keys. apply (in_map fst _ _ HinE). }
  apply in_map_iff in HK as ([k r] & Ek & HinM). simpl in Ek. subst k.
  (* where it is, in the map and in the entries *)
  destruct (in_split _ _ HinM) as (M1 & M2 & EM).
  pose proof (new_Map_NoDup (imap entry_of all)) as Hnd.
  fold (dedup_map all) in Hnd. rewrite EM, map_app in Hnd. simpl in Hnd.
  apply NoDup_remove_2 in Hnd. rewrite in_app_iff in Hnd.
  destruct (new_Map_last _ _ _ HinM) as (e1 & e2 & Ees & Hlast).
  assert (Hi : imap entry_of all !! length e1 = Some (K, r)).
  { rewrite Ees. rewrite lookup_app_r by lia.
    replace (length e1 - length e1)%nat with 0%nat by lia. reflexivity. }
  rewrite list_lookup_imap in Hi.
  destruct (all !! length e1) as [y |] eqn:Hy; [| discriminate].
  simpl in Hi. inversion Hi as [Ey]. clear Hi.
  destruct (entry_of_cases (length e1) y) as [[_ E] | (id' & Hid' & Ht' & E)];
    rewrite E in Ey; inversion Ey as [[EK Er]].
  { unfold K in EK. symmetry in EK. apply key_of_truthy in EK; [contradiction |].
    exact Htruthy. }
  subst y. apply key_of_primitive in EK; [| exact Hprim]. subst id'.
  exists (List.filter (fun meal => negb (is_null meal)) (map snd M1)), r,
         (List.filter (fun meal => negb (is_null meal)) (map snd M2)), (length e1).
  split; [| split; [exact Hid' | split; [| split; [exact Hy |]]]].
  - rewrite onlyOne_dedup_map, EM, map_app, filter_app. simpl.
    rewrite (idMeal_not_null r id Hid'). reflexivity.
  - intros x Hx Hidx. apply Hnd.
    apply in_app_or in Hx. destruct Hx as [Hx | Hx];
      apply kept_value in Hx as (k & Hin & Hnn).
    + left. assert (k = K) as ->.
      { apply (Hrecord k x); auto. rewrite EM. apply in_or_app. left. exact Hin. }
      apply (in_map fst _ _ Hin).
    + right. assert (k = K) as ->.
      { apply (Hrecord k x); auto. rewrite EM. apply in_or_app.
        right. right. exact Hin. }
      apply (in_map fst _ _ Hin).
  - intros j x Hj Hx Hidx. apply Hlast.
    pose proof (Hentry j x Hx Hidx) as _.
    assert (Hj' : imap entry_of all !! j = Some (K, x)).
    { rewrite list_lookup_imap, Hx. simpl.
      destruct (entry_of_cases j x) as [[Hf _] | (id' & Hid'' & _ & E')].
      - rewrite Hidx in Hf. simpl in Hf. congruence.
      - rewrite E'. rewrite Hidx in Hid''. inversion Hid''; subst id'.
        unfold K. do 2 f_equal. apply key_of_primitive_pos. exact Hprim. }
    rewrite Ees in Hj'. rewrite lookup_app_r in Hj' by lia.
    destruct (j - length e1)%nat as [| d] eqn:Hd; [lia |].
    simpl in Hj'. apply list_elem_of_lookup_2, list_elem_of_In in Hj'.
    apply (in_map fst _ _ Hj').
Qed.

(** ** Fan-out: de-duplication and partial failure *)

(** C1, as the code has it.  The fan-out search concatenates the partial
    results in fan-out order and de-duplicates them by [idMeal]: every
    truthy primitive id of the concatenation occurs exactly once in the
    output, and the record kept for it is the last one of the
    concatenation with that id. *)
Theorem searchMealsByFirstLetter_keeps_last_record (net : network)
    (letters : list string) (w : world) (id m : json) :
  is_primitive id = true ->
  truthy id = true ->
  List.In m (flat (partials net (fetches w) letters)) ->
  idMeal m = Some id ->
  exists out before r after i,
    fst (searchMealsByFirstLetter net letters w) = Returned (JArr out)
    /\ out = before ++ r :: after
    /\ idMeal r = Some id
    /\ (forall x, List.In x (before ++ after) -> idMeal x <> Some id)
    /\ flat (partials net (fetches w) letters) !! i = Some r
    /\ (forall j x, (i < j)%nat ->
          flat (partials net (fetches w) letters) !! j = Some x ->
          idMeal x <> Some id).
Proof.
  intros Hprim Htruthy Hm Hid.
  destruct (onlyOne_keeps_last _ id m Hprim Htruthy Hm Hid)
    as (before & r & after & i & Hout & Hr & Hothers & Hi & Hlast).
  exists (onlyOne (flat (partials net (fetches w) letters))), before, r, after, i.
  split; [apply searchMealsByFirstLetter_run |].
  repeat split; assumption.
Qed.

Lemma searchMealsByFirstLetter_keeps_last_record_witness :
  exists out before r after i,
    fst (searchMealsByFirstLetter renamed_service ["a"; "b"] start)
    = Returned (JArr out)
    /\ out = before ++ r :: after
    /\ idMeal r = Some (JStr "52893")
    /\ (forall x, List.In x (before ++ after) -> idMeal x <> Some (JStr "52893"))
    /\ flat (partials renamed_service 0 ["a"; "b"]) !! i = Some r
    /\ (forall j x, (i < j)%nat ->
          flat (partials renamed_service 0 ["a"; "b"]) !! j = Some x ->
          idMeal x <> Some (JStr "52893")).
Proof.
  apply (searchMealsByFirstLetter_keeps_last_record renamed_service ["a"; "b"]
           start (JStr "52893") crumble_a).
  - reflexivity.
  - reflexivity.
  - simpl. left. reflexivity.
  - reflexivity.
Defined.

(** C1, as stated, fails: when both partial results hold a record with the
    same id, the record of the second one is returned, not the first-seen
    one. *)
Lemma first_seen_record_not_kept :
  flat (partials renamed_service 0 ["a"; "b"]) = [crumble_a; crumble_b]
  /\ idMeal crumble_a = idMeal crumble_b
  /\ crumble_a <> crumble_b
  /\ fst (searchMealsByFirstLetter renamed_service ["a"; "b"] start)
     = Returned (JArr [crumble_b]).
Proof.
  split; [reflexivity |]. split; [reflexivity |].
  split; [discriminate | reflexivity].
Qed.


Lemma letter_result_failed (o : fetch_outcome) :
  call_fails o = true -> letter_result o = JArr [].
Proof.
  destruct o as [e | r]; simpl; [reflexivity |].
  destruct (resp_ok r); simpl; [| reflexivity].
  destruct (resp_json r); [reflexivity | discriminate].
Qed.


(** Every record of the output is a record of the input. *)
Lemma onlyOne_from_all (all : list json) (x : json) :
  List.In x (onlyOne all) -> List.In x all.
Proof.
  rewrite onlyOne_dedup_map. intros Hin.
  apply kept_value in Hin as (k & Hin & Hx).
  apply dedup_map_entry in Hin.
  apply entry_of_record in Hin as (pos & id & Hpos & _); [| exact Hx].
  apply list_elem_of_In. apply (list_elem_of_lookup_2 _ _ _ Hpos).
Qed.




(** C10. No record without a truthy [idMeal] is ever returned by the
    fan-out search, whether or not the call that produced it succeeded:
    each of them is entered in the map under the key [null] with the value
    [null], the map has at most one entry under that key, and that entry is
    filtered out. *)
Theorem searchMealsByFirstLetter_drops_idless_records (net : network)
    (letters : list string) (w : world) :
  exists out,
    fst (searchMealsByFirstLetter net letters w) = Returned (JArr out)
    /\ (forall m, List.In m out -> truthy_val (idMeal m) = true)
    /\ (forall m, truthy_val (idMeal m) = false -> ~ List.In m out)
    /\ (forall pos m, truthy_val (idMeal m) = false ->
          entry_of pos m = (KNull, JNull))
    /\ (count_occ map_key_eq_dec
          (map fst (dedup_map (flat (partials net (fetches w) letters)))) KNull
        <= 1)%nat
    /\ (forall v,
          List.In (KNull, v) (dedup_map (flat (partials net (fetches w) letters))) ->
          v = JNull).
Proof.
  exists (onlyOne (flat (partials net (fetches w) letters))).
  split; [apply searchMealsByFirstLetter_run |].
  split; [intros m; apply onlyOne_has_id |].
  split.
  { intros m Hm Hin. apply onlyOne_has_id in Hin. congruence. }
  split.
  { intros pos m Hm.
    destruct (entry_of_cases pos m) as [[_ E] | (id & Hid & Ht & _)]; [exact E |].
    rewrite Hid in Hm. simpl in Hm. congruence. }
  split.
  { apply NoDup_count_occ. apply new_Map_NoDup. }
  intros v Hin. apply dedup_map_entry in Hin.
  apply list_elem_of_In, elem_of_lookup_imap in Hin as (pos & y & E & _).
  destruct (entry_of_cases pos y) as [[_ E'] | (id & _ & Ht & E')];
    rewrite E' in E; [congruence |].
  injection E as EK Ev.
  symmetry in EK. apply key_of_truthy in EK; [contradiction | exact Ht].
Qed.

Lemma searchMealsByFirstLetter_drops_idless_records_witness :
  exists out,
    fst (searchMealsByFirstLetter idless_service ["a"] start) = Returned (JArr out)
    /\ ~ List.In nameless out.
Proof.
  destruct (searchMealsByFirstLetter_drops_idless_records idless_service ["a"] start)
    as (out & Hout & _ & Hdrop & _).
  exists out. split; [exact Hout |].
  apply Hdrop. reflexivity.
Defined.

(** * Further properties of the client *)

(** ** [getMealById]: every outcome of an attempt *)

Lemma getMealById_null_retry (net : network) (id : string) (attempts : Z) (w : world) :
  null_body (respond net (fetches w) (LookupById id)) = true ->
  attempts > 1 ->
  getMealById net id attempts w = getMealById net id (attempts - 1) (backoff w id).
Proof.
  intros Hn Hgt. rewrite (getMealById_equation_1 net id attempts).
  unfold try_catch_async. unfold bind at 1. rewrite fetch_run.
  unfold null_body in Hn. unfold backoff, fetched, json_of.
  destruct (respond net (fetches w) (LookupById id)) as [e | r]; [discriminate |].
  destruct (resp_ok r); [| discriminate]. simpl in Hn.
  destruct (resp_json r) as [e | data]; [discriminate |].
  destruct data; try discriminate.
  destruct (Z_gt_dec attempts 1); [| lia].
  run_js. rewrite app_two. reflexivity.
Qed.

Lemma getMealById_null_give_up (net : network) (id : string) (attempts : Z) (w : world) :
  null_body (respond net (fetches w) (LookupById id)) = true ->
  attempts <= 1 ->
  getMealById net id attempts w = (Returned JNull, gave_up w id attempts).
Proof.
  intros Hn Hle. rewrite (getMealById_equation_1 net id attempts).
  unfold try_catch_async. unfold bind at 1. rewrite fetch_run.
  unfold null_body in Hn. unfold gave_up, fetched, json_of.
  destruct (respond net (fetches w) (LookupById id)) as [e | r]; [discriminate |].
  destruct (resp_ok r); [| discriminate]. simpl in Hn.
  destruct (resp_json r) as [e | data]; [discriminate |].
  destruct data; try discriminate.
  destruct (Z_gt_dec attempts 1); [lia |].
  run_js. rewrite app_two. reflexivity.
Qed.

(** An attempt fails, has a [null] body, or succeeds with a body that is
    not [null]. *)
Lemma attempt_cases (o : fetch_outcome) :
  call_fails o = true \/ null_body o = true
  \/ exists r data, o = Resolves r /\ resp_ok r = true
                    /\ resp_json r = inr data /\ data <> JNull.
Proof.
  destruct o as [e | [ok status body]]; [left; reflexivity |].
  destruct ok; [| left; reflexivity].
  destruct body as [e | data]; [left; reflexivity |].
  destruct data; try (right; left; reflexivity);
    right; right; eexists _, _; repeat split; discriminate.
Qed.

Lemma count_fetches_app (t t' : list event) :
  count_fetches (t ++ t') = (count_fetches t + count_fetches t')%nat.
Proof. unfold count_fetches. rewrite filter_app, length_app. reflexivity. Qed.

Lemma count_sleeps_app (t t' : list event) :
  count_sleeps (t ++ t') = (count_sleeps t + count_sleeps t')%nat.
Proof. unfold count_sleeps. rewrite filter_app, length_app. reflexivity. Qed.

(** The lookup always returns; it issues at least one call and at most
    [max 1 attempts], and waits once between two calls. *)
Lemma getMealById_completes (net : network) (id : string) (n : nat) :
  forall (attempts : Z) (w : world),
    (Z.to_nat attempts <= n)%nat ->
    exists v t,
      getMealById net id attempts w =
      (Returned v, World (fetches w + count_fetches t) (trace w ++ t))
      /\ (1 <= count_fetches t)%nat
      /\ Z.of_nat (count_fetches t) <= Z.max 1 attempts
      /\ (count_sleeps t + 1 = count_fetches t)%nat.
Proof.
  induction n as [| n IH]; intros attempts w Hn.
  - (* attempts <= 0: a single attempt *)
    destruct (attempt_cases (respond net (fetches w) (LookupById id)))
      as [Hf | [Hf | (r & data & Hr & Hok & Hj & Hd)]].
    + rewrite getMealById_give_up by (auto; lia).
      exists JNull, [EvFetch (LookupById id);
                       EvLog ("Cannot find meal after " +:+ pretty attempts +:+ " attepmts")].
        unfold gave_up. split; [f_equal; f_equal; unfold count_fetches; simpl; lia |].
      unfold count_fetches, count_sleeps; simpl. lia.
    + rewrite getMealById_null_give_up by (auto; lia).
      exists JNull, [EvFetch (LookupById id);
                       EvLog ("Cannot find meal after " +:+ pretty attempts +:+ " attepmts")].
        unfold gave_up. split; [f_equal; f_equal; unfold count_fetches; simpl; lia |].
      unfold count_fetches, count_sleeps; simpl. lia.
    + rewrite (getMealById_found net id attempts w r data) by auto.
      exists (first_meal (get_prop data "meals")), [EvFetch (LookupById id)].
      unfold fetched. split; [f_equal; f_equal; unfold count_fetches; simpl; lia |].
      unfold count_fetches, count_sleeps; simpl. lia.
  - destruct (attempt_cases (respond net (fetches w) (LookupById id)))
      as [Hf | [Hf | (r & data & Hr & Hok & Hj & Hd)]].
    + destruct (Z_gt_dec attempts 1) as [Hgt | Hle].
      * rewrite getMealById_retry by auto.
        destruct (IH (attempts - 1) (backoff w id)) as (v & t & E & H1 & H2 & H3);
          [lia |].
        exists v, ([EvFetch (LookupById id); EvSleep 1000] ++ t).
        rewrite E. unfold backoff; simpl. split.
        -- f_equal. f_equal; [unfold count_fetches; simpl; lia |].
           rewrite <- app_assoc. reflexivity.
        -- unfold count_fetches, count_sleeps in *; simpl. lia.
      * rewrite getMealById_give_up by (auto; lia).
        exists JNull, [EvFetch (LookupById id);
                       EvLog ("Cannot find meal after " +:+ pretty attempts +:+ " attepmts")].
        unfold gave_up. split; [f_equal; f_equal; unfold count_fetches; simpl; lia |].
        unfold count_fetches, count_sleeps; simpl. lia.
    + destruct (Z_gt_dec attempts 1) as [Hgt | Hle].
      * rewrite getMealById_null_retry by auto.
        destruct (IH (attempts - 1) (backoff w id)) as (v & t & E & H1 & H2 & H3);
          [lia |].
        exists v, ([EvFetch (LookupById id); EvSleep 1000] ++ t).
        rewrite E. unfold backoff; simpl. split.
        -- f_equal. f_equal; [unfold count_fetches; simpl; lia |].
           rewrite <- app_assoc. reflexivity.
        -- unfold count_fetches, count_sleeps in *; simpl. lia.
      * rewrite getMealById_null_give_up by (auto; lia).
        exists JNull, [EvFetch (LookupById id);
                       EvLog ("Cannot find meal after " +:+ pretty attempts +:+ " attepmts")].
        unfold gave_up. split; [f_equal; f_equal; unfold count_fetches; simpl; lia |].
        unfold count_fetches, count_sleeps; simpl. lia.
    + rewrite (getMealById_found net id attempts w r data) by auto.
      exists (first_meal (get_prop data "meals")), [EvFetch (LookupById id)].
      unfold fetched. split; [f_equal; f_equal; unfold count_fetches; simpl; lia |].
      unfold count_fetches, count_sleeps; simpl. lia.
Qed.

(** The shape of every run of the lookup: [k] rounds of a call followed
    by the backoff, then a last call, then nothing (found) or the console
    line (given up, every attempt used). *)
Lemma getMealById_run_shape (net : network) (id : string) (n : nat) :
  forall (attempts : Z) (w : world),
    (Z.to_nat attempts <= n)%nat ->
    exists v k tail,
      getMealById net id attempts w =
      (Returned v,
       World (fetches w + S k)
         (trace w
          ++ concat (repeat [EvFetch (LookupById id); EvSleep 1000] k)
          ++ EvFetch (LookupById id) :: tail))
      /\ Z.of_nat (S k) <= Z.max 1 attempts
      /\ (tail = []
          \/ (tail = [EvLog ("Cannot find meal after "
                             +:+ pretty (attempts - Z.of_nat k) +:+ " attepmts")]
              /\ v = JNull
              /\ Z.of_nat (S k) = Z.max 1 attempts)).
Proof.
  assert (Hstop : forall attempts w,
            attempts <= 1 ->
            exists v k tail,
              getMealById net id attempts w =
              (Returned v,
               World (fetches w + S k)
                 (trace w
                  ++ concat (repeat [EvFetch (LookupById id); EvSleep 1000] k)
                  ++ EvFetch (LookupById id) :: tail))
              /\ Z.of_nat (S k) <= Z.max 1 attempts
              /\ (tail = []
                  \/ (tail = [EvLog ("Cannot find meal after "
                                     +:+ pretty (attempts - Z.of_nat k)
                                     +:+ " attepmts")]
                      /\ v = JNull
                      /\ Z.of_nat (S k) = Z.max 1 attempts))).
  { intros attempts w Hle.
    destruct (attempt_cases (respond net (fetches w) (LookupById id)))
      as [Hf | [Hf | (r & data & Hr & Hok & Hj & Hd)]].
    - rewrite getMealById_give_up by auto.
      exists JNull, 0%nat, [EvLog ("Cannot find meal after "
                                  +:+ pretty attempts +:+ " attepmts")].
      unfold gave_up; simpl. rewrite Z.sub_0_r.
      split; [f_equal; f_equal; lia |]. split; [lia |].
      right. repeat split. lia.
    - rewrite getMealById_null_give_up by auto.
      exists JNull, 0%nat, [EvLog ("Cannot find meal after "
                                  +:+ pretty attempts +:+ " attepmts")].
      unfold gave_up; simpl. rewrite Z.sub_0_r.
      split; [f_equal; f_equal; lia |]. split; [lia |].
      right. repeat split. lia.
    - rewrite (getMealById_found net id attempts w r data) by auto.
      exists (first_meal (get_prop data "meals")), 0%nat, [].
      unfold fetched; simpl.
      split; [f_equal; f_equal; lia |]. split; [lia | left; reflexivity]. }
  assert (Hfound : forall attempts w r data,
            respond net (fetches w) (LookupById id) = Resolves r ->
            resp_ok r = true -> resp_json r = inr data -> data <> JNull ->
            exists v k tail,
              getMealById net id attempts w =
              (Returned v,
               World (fetches w + S k)
                 (trace w
                  ++ concat (repeat [EvFetch (LookupById id); EvSleep 1000] k)
                  ++ EvFetch (LookupById id) :: tail))
              /\ Z.of_nat (S k) <= Z.max 1 attempts
              /\ (tail = []
                  \/ (tail = [EvLog ("Cannot find meal after "
                                     +:+ pretty (attempts - Z.of_nat k)
                                     +:+ " attepmts")]
                      /\ v = JNull
                      /\ Z.of_nat (S k) = Z.max 1 attempts))).
  { intros attempts w r data Hr Hok Hj Hd.
    rewrite (getMealById_found net id attempts w r data) by auto.
    exists (first_meal (get_prop data "meals")), 0%nat, [].
    unfold fetched; simpl.
    split; [f_equal; f_equal; lia |]. split; [lia | left; reflexivity]. }
  induction n as [| n IH]; intros attempts w Hn; [apply Hstop; lia |].
  destruct (Z_gt_dec attempts 1) as [Hgt | Hle]; [| apply Hstop; lia].
  assert (Hretry : getMealById net id attempts w
                   = getMealById net id (attempts - 1) (backoff w id) ->
                   exists v k tail,
                     getMealById net id attempts w =
                     (Returned v,
                      World (fetches w + S k)
                        (trace w
                         ++ concat (repeat [EvFetch (LookupById id); EvSleep 1000] k)
                         ++ EvFetch (LookupById id) :: tail))
                     /\ Z.of_nat (S k) <= Z.max 1 attempts
                     /\ (tail = []
                         \/ (tail = [EvLog ("Cannot find meal after "
                                            +:+ pretty (attempts - Z.of_nat k)
                                            +:+ " attepmts")]
                             /\ v = JNull
                             /\ Z.of_nat (S k) = Z.max 1 attempts))).
  { intros E.
    destruct (IH (attempts - 1) (backoff w id)) as (v & k & tail & E' & Hk & Htail);
      [lia |].
    exists v, (S k), tail. rewrite E, E'. unfold backoff; simpl.
    split; [f_equal; f_equal; [lia | rewrite <- app_assoc; reflexivity] |].
    split; [lia |].
    destruct Htail as [-> | (-> & -> & Hall)]; [left; reflexivity |].
    right. split; [| split; [reflexivity | lia]].
    replace (attempts - Z.of_nat (S k)) with (attempts - 1 - Z.of_nat k) by lia.
    reflexivity. }
  destruct (attempt_cases (respond net (fetches w) (LookupById id)))
    as [Hf | [Hf | (r & data & Hr & Hok & Hj & Hd)]].
  - apply Hretry. apply getMealById_retry; auto.
  - apply Hretry. apply getMealById_null_retry; auto.
  - apply (Hfound attempts w r data); auto.
Qed.

(** X1. For every service and every integer [attempts] (zero and negative
    included) [getMealById] never throws.  It issues [k + 1] calls, at most
    [max 1 attempts]; each of the first [k] calls is followed by one wait
    of 1000 ms and then by the next call; after the last call it either
    returns at once, or, every attempt being used, writes one console line
    and returns [null]. *)
Theorem getMealById_returns_within_attempts (net : network) (id : string)
    (attempts : Z) (w : world) :
  exists v k tail,
    getMealById net id attempts w =
    (Returned v,
     World (fetches w + S k)
       (trace w
        ++ concat (repeat [EvFetch (LookupById id); EvSleep 1000] k)
        ++ EvFetch (LookupById id) :: tail))
    /\ Z.of_nat (S k) <= Z.max 1 attempts
    /\ (tail = []
        \/ (tail = [EvLog ("Cannot find meal after "
                           +:+ pretty (attempts - Z.of_nat k) +:+ " attepmts")]
            /\ v = JNull
            /\ Z.of_nat (S k) = Z.max 1 attempts)).
Proof. apply (getMealById_run_shape net id (Z.to_nat attempts)). lia. Qed.

Lemma concat_repeat_snoc {A} (x : list A) (k : nat) :
  concat (repeat x k) ++ x = x ++ concat (repeat x k).
Proof.
  induction k as [| k IH]; simpl; [rewrite app_nil_r; reflexivity |].
  rewrite <- app_assoc, IH. reflexivity.
Qed.

Lemma backoffs_trace (k : nat) (w : world) (id : string) :
  backoffs k w id =
  World (fetches w + k)
    (trace w ++ concat (repeat [EvFetch (LookupById id); EvSleep 1000] k)).
Proof.
  unfold backoffs. induction k as [| k IH]; simpl.
  - rewrite Nat.add_0_r, app_nil_r. destruct w; reflexivity.
  - rewrite IH. unfold backoff; simpl. f_equal; [lia |].
    rewrite <- app_assoc. f_equal.
    apply (concat_repeat_snoc [EvFetch (LookupById id); EvSleep 1000] k).
Qed.

(** X2. Against a service that fails every call, [getMealById] with
    [n + 1] attempts issues exactly [n + 1] calls, waits 1000 ms after each
    of the first [n], logs once and resolves to [null]. *)
Theorem getMealById_uses_every_attempt (net : network) (id : string) (n : nat)
    (w : world) :
  (forall i, call_fails (respond net i (LookupById id)) = true) ->
  getMealById net id (Z.of_nat (S n)) w =
  (Returned JNull,
   World (fetches w + S n)
     (trace w
      ++ concat (repeat [EvFetch (LookupById id); EvSleep 1000] n)
      ++ [EvFetch (LookupById id); EvLog "Cannot find meal after 1 attepmts"])).
Proof.
  intros Hfail. rewrite (getMealById_exhaustion net id n w Hfail).
  rewrite backoffs_trace. unfold gave_up; simpl.
  f_equal. f_equal; [lia |]. rewrite <- app_assoc. reflexivity.
Qed.

Lemma getMealById_uses_every_attempt_witness :
  getMealById always_down "52772" 3 start =
  (Returned JNull,
   World 3 [EvFetch (LookupById "52772"); EvSleep 1000;
            EvFetch (LookupById "52772"); EvSleep 1000;
            EvFetch (LookupById "52772");
            EvLog "Cannot find meal after 1 attepmts"]).
Proof.
  apply (getMealById_uses_every_attempt always_down "52772" 2 start).
  intros i. reflexivity.
Defined.

(** X3. An ok answer whose body is the JSON value [null] counts as a
    failed attempt of [getMealById]: reading [data.meals] throws inside the
    [try], so the call is retried after the backoff when attempts are left,
    and resolves to [null] otherwise. *)
Theorem getMealById_null_body_is_a_failure (net : network) (id : string)
    (attempts : Z) (w : world) (r : response) :
  respond net (fetches w) (LookupById id) = Resolves r ->
  resp_ok r = true ->
  resp_json r = inr JNull ->
  getMealById net id attempts w =
  if attempts >? 1 then getMealById net id (attempts - 1) (backoff w id)
  else (Returned JNull, gave_up w id attempts).
Proof.
  intros Hr Hok Hj.
  assert (Hn : null_body (respond net (fetches w) (LookupById id)) = true).
  { rewrite Hr. simpl. rewrite Hok, Hj. reflexivity. }
  destruct (Z.gtb_spec attempts 1) as [Hgt | Hle].
  - apply getMealById_null_retry; [exact Hn | lia].
  - apply getMealById_null_give_up; [exact Hn | lia].
Qed.

Lemma getMealById_null_body_is_a_failure_witness :
  fst (getMealById null_then_found "52771" 2 start) = Returned arrabiata
  /\ fst (getMealById null_then_found "52771" 1 start) = Returned JNull.
Proof.
  split.
  - rewrite (getMealById_null_body_is_a_failure null_then_found "52771" 2 start
               (Response true 200 (inr JNull)) eq_refl eq_refl eq_refl).
    reflexivity.
  - rewrite (getMealById_null_body_is_a_failure null_then_found "52771" 1 start
               (Response true 200 (inr JNull)) eq_refl eq_refl eq_refl).
    reflexivity.
Defined.

(** ** The detail view's producer *)

(** X4. The producer that [viewRecipeDetails] gives to the cache always
    throws a TypeError: [getMealById] resolves to a decoded record or to
    [null], neither of which has a [json] method.  It throws only after the
    lookup has run, with one or two calls issued. *)
Theorem viewRecipeDetails_producer_always_throws (net : network)
    (recipeId : string) (w : world) :
  exists e t,
    viewRecipeDetails_producer net recipeId w =
    (Threw e, World (fetches w + count_fetches t) (trace w ++ t))
    /\ err_name e = "TypeError"
    /\ (1 <= count_fetches t <= 2)%nat.
Proof.
  destruct (getMealById_completes net recipeId 2 2 w) as (v & t & E & H1 & H2 & _);
    [lia |].
  unfold viewRecipeDetails_producer, call_method. unfold bind at 1. rewrite E.
  destruct v; run_js; eexists _, t; (split; [reflexivity |]);
    (split; [reflexivity | lia]).
Qed.

(** ** [searchMealsByName] *)

(** X5. For every query for which the request can be built (a string
    that [encodeURIComponent] accepts, as every string of the model is)
    [searchMealsByName] returns without throwing after exactly one call.
    A rejected call, a non-ok status, an undecodable body and a [null]
    body all give the empty list, with one console line; any other answer
    gives its [meals] field when that is truthy, unchanged, and the empty
    list otherwise, without a console line. *)
Theorem searchMealsByName_outcomes (net : network) (query : string) (w : world) :
  exists v t,
    searchMealsByName net query w =
    (Returned v, World (S (fetches w)) (trace w ++ EvFetch (SearchByName query) :: t))
    /\ (call_fails (respond net (fetches w) (SearchByName query)) = true
        \/ null_body (respond net (fetches w) (SearchByName query)) = true ->
        v = JArr [] /\ t = [EvLog "Failed to get meals:"])
    /\ (forall r data,
          respond net (fetches w) (SearchByName query) = Resolves r ->
          resp_ok r = true -> resp_json r = inr data -> data <> JNull ->
          v = or_else (get_prop data "meals") (JArr []) /\ t = []).
Proof.
  unfold searchMealsByName, try_catch. unfold bind at 1. rewrite fetch_run.
  unfold fetched, json_of.
  destruct (respond net (fetches w) (SearchByName query)) as [e | [ok status body]];
    simpl.
  - run_js. eexists _, _. rewrite app_two. split; [reflexivity |].
    split; [auto | intros; discriminate].
  - destruct ok; simpl.
    + destruct body as [e | data].
      * run_js. eexists _, _. rewrite app_two. split; [reflexivity |].
        split; [auto | intros r data Hr _ Hj; inversion Hr; subst; discriminate].
      * destruct data;
          try (run_js; eexists _, []; split; [reflexivity |];
               split; [intros [? | ?]; discriminate
                      | intros r data Hr _ Hj _; inversion Hr; subst;
                        inversion Hj; subst; auto]).
        run_js. eexists _, _. rewrite app_two. split; [reflexivity |].
        split; [auto
               | intros r data Hr _ Hj Hd; inversion Hr; subst;
                 inversion Hj; subst; congruence].
    + run_js. eexists _, _. rewrite app_two. split; [reflexivity |].
      split; [auto | intros r data Hr Hok; inversion Hr; subst; discriminate].
Qed.

Lemma searchMealsByName_outcomes_witness :
  fst (searchMealsByName server_error "pie" start) = Returned (JArr [])
  /\ fst (searchMealsByName beef_service "pie" start)
     = Returned (JArr [beef_pie; beef_brisket]).
Proof.
  split.
  - destruct (searchMealsByName_outcomes server_error "pie" start)
      as (v & t & E & Hfail & _).
    rewrite E. destruct Hfail as [-> _]; [left; reflexivity | reflexivity].
  - destruct (searchMealsByName_outcomes beef_service "pie" start)
      as (v & t & E & _ & Hok).
    rewrite E.
    destruct (Hok _ _ eq_refl eq_refl eq_refl) as [-> _]; [discriminate |].
    reflexivity.
Defined.

(** ** [getMealsByIngredient] *)

(** X6. For every ingredient for which the request can be built (a string
    that [encodeURIComponent] accepts, as every string of the model is),
    whatever the service and the timeout, [getMealsByIngredient] returns
    without throwing: it issues one call, then starts one timer, and
    whatever else it does is writing console lines. *)
Theorem getMealsByIngredient_never_throws (net : network) (ingredient : string)
    (timeoutMs : Z) (w : world) :
  exists v t,
    getMealsByIngredient net ingredient timeoutMs w =
    (Returned v,
     World (S (fetches w))
       (trace w ++ [EvFetch (FilterByIngredient ingredient); EvTimer timeoutMs] ++ t))
    /\ forallb is_log t = true.
Proof.
  unfold getMealsByIngredient, try_catch, fetch_promise, reject_after, race,
    promise_then, await.
  unfold bind at 1. simpl. unfold bind at 1. rewrite bind_emit. simpl.
  rewrite app_two.
  destruct (latency net (fetches w) (FilterByIngredient ingredient)
            <=? setTimeout_delay timeoutMs); simpl.
  - unfold json_of.
    destruct (respond net (fetches w) (FilterByIngredient ingredient))
      as [e | [ok status body]]; simpl.
    + run_js. destruct (String.eqb (message e) timeout_message); run_js.
      * eexists _, []. split; reflexivity.
      * eexists _, [_]. rewrite <- app_assoc. split; reflexivity.
    + destruct ok; simpl.
      * destruct body as [e | data].
        -- run_js. destruct (String.eqb (message e) timeout_message); run_js.
           ++ eexists _, []. split; reflexivity.
           ++ eexists _, [_]. rewrite <- app_assoc. split; reflexivity.
        -- destruct data; run_js;
             try (eexists _, []; split; reflexivity).
           eexists _, [_]. rewrite <- app_assoc. split; reflexivity.
      * run_js. eexists _, [_]. rewrite <- app_assoc. split; reflexivity.
  - run_js. eexists _, []. split; reflexivity.
Qed.

(** X7. When the answer arrives before the timer and its [meals] field is
    an array, [getMealsByIngredient] returns that array as it is: records
    with the same id and records without an id are all kept. *)
Theorem getMealsByIngredient_returns_list_unchanged (net : network)
    (ingredient : string) (timeoutMs : Z) (w : world) (r : response)
    (data : json) (records : list json) :
  latency net (fetches w) (FilterByIngredient ingredient) < setTimeout_delay timeoutMs ->
  respond net (fetches w) (FilterByIngredient ingredient) = Resolves r ->
  resp_ok r = true ->
  resp_json r = inr data ->
  get_prop data "meals" = Some (JArr records) ->
  fst (getMealsByIngredient net ingredient timeoutMs w) = Returned (JArr records).
Proof.
  intros Hlat Hr Hok Hj Hm.
  rewrite (getMealsByIngredient_call_first _ _ _ _ Hlat). cbv beta iota zeta.
  rewrite Hr, Hok, Hj.
  destruct data; simpl in Hm; try discriminate.
  simpl. rewrite Hm. reflexivity.
Qed.

Lemma getMealsByIngredient_returns_list_unchanged_witness :
  fst (getMealsByIngredient chicken_twice "apple" 5000 start)
  = Returned (JArr [crumble_a; nameless; crumble_b]).
Proof.
  apply (getMealsByIngredient_returns_list_unchanged chicken_twice "apple" 5000 start
           (Response true 200
              (inr (JObj [("meals", JArr [crumble_a; nameless; crumble_b])])))
           (JObj [("meals", JArr [crumble_a; nameless; crumble_b])]));
    reflexivity.
Defined.

(** ** [getRelatedRecipes] *)



(** ** Fan-out: calls, order and size *)

Lemma letter_task_trace (net : network) (letter : string) (w : world) :
  exists logs,
    letter_task net letter w =
    (Returned (letter_result (respond net (fetches w) (SearchByLetter (charAt0 letter)))),
     World (S (fetches w))
       (trace w ++ EvFetch (SearchByLetter (charAt0 letter)) :: logs))
    /\ List.filter is_fetch logs = [].
Proof.
  unfold letter_task, try_catch. unfold bind at 1. rewrite fetch_run.
  unfold letter_result, json_of, fetched.
  destruct (respond net (fetches w) (SearchByLetter (charAt0 letter)))
    as [e | [ok status body]]; simpl.
  - run_js. rewrite app_two. eexists [_]. split; reflexivity.
  - destruct ok; simpl.
    + destruct body as [e | info].
      * run_js. rewrite app_two. eexists [_]. split; reflexivity.
      * destruct info; run_js; try (exists []; split; reflexivity).
        rewrite app_two. eexists [_]. split; reflexivity.
    + run_js. rewrite app_two. eexists [_]. split; reflexivity.
Qed.

Lemma promise_all_trace (net : network) (letters : list string) :
  forall w, exists t,
    promise_all (map (letter_task net) letters) w =
    (Returned (partials net (fetches w) letters),
     World (fetches w + length letters) (trace w ++ t))
    /\ List.filter is_fetch t =
       map (fun letter => EvFetch (SearchByLetter (charAt0 letter))) letters.
Proof.
  induction letters as [| letter rest IH]; intros w; simpl.
  - exists []. rewrite Nat.add_0_r, app_nil_r. destruct w. split; reflexivity.
  - destruct (letter_task_trace net letter w) as (logs & E1 & Hlogs).
    destruct (IH (World (S (fetches w))
                    (trace w ++ EvFetch (SearchByLetter (charAt0 letter)) :: logs)))
      as (t & E2 & Ht).
    exists (EvFetch (SearchByLetter (charAt0 letter)) :: logs ++ t).
    unfold bind. rewrite E1, E2. simpl. split.
    + f_equal. f_equal; [lia |]. rewrite <- app_assoc. reflexivity.
    + rewrite filter_app, Hlogs, Ht. reflexivity.
Qed.

(** X9. [searchMealsByFirstLetter] never throws and issues exactly one
    call per letter, in the order of the letters, each for the first
    character of its letter; the empty string asks for the empty
    character. *)
Theorem searchMealsByFirstLetter_one_call_per_letter (net : network)
    (letters : list string) (w : world) :
  exists v t,
    searchMealsByFirstLetter net letters w =
    (Returned v, World (fetches w + length letters) (trace w ++ t))
    /\ List.filter is_fetch t =
       map (fun letter => EvFetch (SearchByLetter (charAt0 letter))) letters.
Proof.
  destruct (promise_all_trace net letters w) as (t & E & Ht).
  unfold searchMealsByFirstLetter, try_catch, bind. rewrite E.
  eexists _, t. split; [reflexivity | exact Ht].
Qed.

Lemma partials_first_character (net : network) (l1 : list string) :
  forall (l2 : list string) (n : nat),
    map charAt0 l1 = map charAt0 l2 ->
    partials net n l1 = partials net n l2.
Proof.
  induction l1 as [| a l1 IH]; intros [| b l2] n H; simpl in *;
    try discriminate; [reflexivity |].
  injection H as Hab Hrest. rewrite Hab, (IH l2 (S n) Hrest). reflexivity.
Qed.

(** X10. Only the first character of each letter matters: two lists of
    letters with the same first characters give the same result. *)
Theorem searchMealsByFirstLetter_first_character_only (net : network)
    (l1 l2 : list string) (w : world) :
  map charAt0 l1 = map charAt0 l2 ->
  fst (searchMealsByFirstLetter net l1 w) = fst (searchMealsByFirstLetter net l2 w).
Proof.
  intros H. rewrite !searchMealsByFirstLetter_run.
  rewrite (partials_first_character net l1 l2 _ H). reflexivity.
Qed.

Lemma searchMealsByFirstLetter_first_character_only_witness :
  fst (searchMealsByFirstLetter tart_service ["apple"; "bread"] start)
  = fst (searchMealsByFirstLetter tart_service ["a"; "b"] start).
Proof.
  apply (searchMealsByFirstLetter_first_character_only tart_service
           ["apple"; "bread"] ["a"; "b"] start).
  reflexivity.
Defined.

Lemma onlyOne_length (all : list json) :
  (length (onlyOne all) <= length all)%nat.
Proof.
  rewrite onlyOne_dedup_map.
  etransitivity; [apply filter_length_le |].
  rewrite length_map.
  replace (length (dedup_map all)) with (length (map fst (dedup_map all)))
    by apply length_map.
  replace (length all) with (length (map fst (imap entry_of all)))
    by (rewrite length_map; apply length_imap).
  apply NoDup_incl_length; [apply new_Map_NoDup |].
  intros k Hk. apply in_map_iff in Hk as ([k' v] & <- & Hin).
  apply dedup_map_entry in Hin. apply (in_map fst _ _ Hin).
Qed.

(** X11. The fan-out search returns nothing but records of the partial
    results, and never more records than they hold together. *)
Theorem searchMealsByFirstLetter_returns_partial_records (net : network)
    (letters : list string) (w : world) :
  exists out,
    fst (searchMealsByFirstLetter net letters w) = Returned (JArr out)
    /\ (forall x, List.In x out ->
          List.In x (flat (partials net (fetches w) letters)))
    /\ (length out <= length (flat (partials net (fetches w) letters)))%nat.
Proof.
  exists (onlyOne (flat (partials net (fetches w) letters))).
  split; [apply searchMealsByFirstLetter_run |].
  split; [intros x; apply onlyOne_from_all | apply onlyOne_length].
Qed.

Lemma searchMealsByFirstLetter_returns_partial_records_witness :
  exists out,
    fst (searchMealsByFirstLetter tart_service ["a"; "b"] start) = Returned (JArr out)
    /\ (forall x, List.In x out ->
          List.In x [crumble_a; apple_frangipan; bakewell; crumble_b])
    /\ (length out <= 4)%nat.
Proof.
  exact (searchMealsByFirstLetter_returns_partial_records tart_service ["a"; "b"] start).
Defined.

(** ** Fan-out: records with string ids *)

Section JsMapOrder.
Context {K V : Type} `{EqDecision K}.
Implicit Types (m : list (K * V)) (k : K) (v : V).

Lemma map_set_fresh m k v :
  ~ List.In k (map fst m) -> map_set m k v = m ++ [(k, v)].
Proof.
  induction m as [| [k' v'] rest IH]; simpl; [reflexivity |].
  intros Hnin. destruct (decide (k' = k)) as [-> | Hne]; [tauto |].
  f_equal. apply IH. tauto.
Qed.

(** A [Map] built from entries with pairwise different keys holds exactly
    those entries, in their order. *)
Lemma new_Map_distinct_keys (es : list (K * V)) :
  List.NoDup (map fst es) -> new_Map es = es.
Proof.
  induction es as [| [k v] es IH] using rev_ind; [reflexivity |].
  rewrite map_app. simpl. intros Hnd.
  rewrite new_Map_snoc, IH by (apply NoDup_app_remove_r in Hnd; exact Hnd).
  apply map_set_fresh. intros Hin.
  apply NoDup_remove_2 in Hnd. apply Hnd. rewrite app_nil_r. exact Hin.
Qed.

Lemma map_set_add_new m k v :
  map fst (map_set m k v) = add_new (map fst m) k.
Proof.
  unfold add_new.
  destruct (in_dec (fun a b => decide (a = b)) k (map fst m)) as [Hin | Hnin].
  - apply map_set_keys_present. exact Hin.
  - apply map_set_keys_fresh. exact Hnin.
Qed.

(** The keys of a [Map] stand in the order in which they were first
    given. *)
Lemma new_Map_key_order (es : list (K * V)) :
  map fst (new_Map es) = first_occurrences (map fst es).
Proof.
  unfold new_Map, first_occurrences.
  change (@nil K) with (map fst (@nil (K * V))).
  generalize (@nil (K * V)) as m.
  induction es as [| [k v] es IH]; intros m; simpl; [reflexivity |].
  rewrite IH, map_set_add_new. reflexivity.
Qed.
End JsMapOrder.

Lemma first_occurrences_map {A B} `{EqDecision A} `{EqDecision B} (f : A -> B)
    (l : list A) :
  (forall x y, f x = f y -> x = y) ->
  first_occurrences (map f l) = map f (first_occurrences l).
Proof.
  intros Hinj. unfold first_occurrences.
  change (@nil B) with (map f (@nil A)).
  generalize (@nil A) as kept.
  induction l as [| x l IH]; intros kept; simpl; [reflexivity |].
  replace (add_new (map f kept) (f x)) with (map f (add_new kept x)); [apply IH |].
  unfold add_new.
  destruct (in_dec (fun a b => decide (a = b)) x kept) as [Hx | Hx];
    destruct (in_dec (fun a b => decide (a = b)) (f x) (map f kept)) as [Hfx | Hfx].
  - reflexivity.
  - exfalso. apply Hfx. apply in_map. exact Hx.
  - exfalso. apply in_map_iff in Hfx as (y & E & Hy).
    apply Hinj in E. subst y. exact (Hx Hy).
  - rewrite map_app. reflexivity.
Qed.

Lemma has_string_id_entry (pos : nat) (meal : json) :
  has_string_id meal = true ->
  entry_of pos meal = (KStr (id_string meal), meal) /\ is_null meal = false.
Proof.
  unfold has_string_id, id_string, entry_of, idMeal.
  destruct (get_prop_opt meal "idMeal") as [[] |] eqn:E; simpl;
    try discriminate.
  intros Hs. rewrite Hs. split; [reflexivity |].
  destruct meal; simpl in *; congruence.
Qed.

Lemma string_id_entries (all : list json) :
  forallb has_string_id all = true ->
  imap entry_of all = map (fun meal => (KStr (id_string meal), meal)) all.
Proof.
  intros Hall. rewrite <- imap_const. apply imap_ext.
  intros pos meal Hpos. unfold const.
  apply has_string_id_entry.
  rewrite forallb_forall in Hall. apply Hall.
  apply list_elem_of_In. apply (list_elem_of_lookup_2 _ _ _ Hpos).
Qed.

Lemma string_id_not_null (all : list json) :
  forallb has_string_id all = true ->
  forallb (fun meal => negb (is_null meal)) all = true.
Proof.
  rewrite !forallb_forall. intros Hall meal Hin.
  destruct (has_string_id_entry 0 meal (Hall meal Hin)) as [_ ->]. reflexivity.
Qed.

(** X12. When every record of the partial results has a non-empty string
    [idMeal] and no two of them have the same, the fan-out search returns
    all of them, in fan-out order. *)
Theorem searchMealsByFirstLetter_distinct_ids_all_returned (net : network)
    (letters : list string) (w : world) :
  forallb has_string_id (flat (partials net (fetches w) letters)) = true ->
  List.NoDup (map id_string (flat (partials net (fetches w) letters))) ->
  fst (searchMealsByFirstLetter net letters w) =
  Returned (JArr (flat (partials net (fetches w) letters))).
Proof.
  intros Hall Hnd. rewrite searchMealsByFirstLetter_run.
  set (all := flat (partials net (fetches w) letters)) in *.
  do 2 f_equal. unfold onlyOne.
  rewrite (string_id_entries all Hall).
  rewrite new_Map_distinct_keys.
  - unfold map_values. rewrite map_map. simpl. rewrite map_id.
    apply forallb_filter_id. apply string_id_not_null. exact Hall.
  - rewrite map_map. simpl. rewrite <- (map_map id_string KStr).
    apply Finite.Injective_map_NoDup; [| exact Hnd].
    intros x y E. congruence.
Qed.

Lemma searchMealsByFirstLetter_distinct_ids_all_returned_witness :
  fst (searchMealsByFirstLetter tart_service ["a"] start) =
  Returned (JArr [crumble_a; apple_frangipan]).
Proof.
  apply (searchMealsByFirstLetter_distinct_ids_all_returned tart_service ["a"] start).
  - reflexivity.
  - simpl. repeat constructor; simpl; intuition discriminate.
Defined.

(** X13. When every record of the partial results has a non-empty string
    [idMeal], the ids of the output are the ids of the partial results in
    the order of their first occurrence, each once. *)
Theorem searchMealsByFirstLetter_first_occurrence_order (net : network)
    (letters : list string) (w : world) :
  forallb has_string_id (flat (partials net (fetches w) letters)) = true ->
  exists out,
    fst (searchMealsByFirstLetter net letters w) = Returned (JArr out)
    /\ map id_string out =
       first_occurrences (map id_string (flat (partials net (fetches w) letters))).
Proof.
  intros Hall.
  exists (onlyOne (flat (partials net (fetches w) letters))).
  split; [apply searchMealsByFirstLetter_run |].
  set (all := flat (partials net (fetches w) letters)) in *.
  assert (Hentries : forall k v, List.In (k, v) (dedup_map all) ->
                       k = KStr (id_string v) /\ is_null v = false).
  { intros k v Hin. apply dedup_map_entry in Hin.
    rewrite (string_id_entries all Hall) in Hin.
    apply in_map_iff in Hin as (meal & E & Hmeal). inversion E; subst.
    split; [reflexivity |].
    rewrite forallb_forall in Hall.
    apply (has_string_id_entry 0 v (Hall v Hmeal)). }
  assert (Hkeys : map fst (dedup_map all) =
                  map KStr (map id_string (map snd (dedup_map all)))).
  { revert Hentries. generalize (dedup_map all) as entries.
    induction entries as [| [k v] entries IH]; intros Hentries; [reflexivity |].
    simpl. rewrite <- IH by (intros; apply Hentries; right; assumption).
    destruct (Hentries k v (or_introl eq_refl)) as [-> _]. reflexivity. }
  assert (Hkept : onlyOne all = map snd (dedup_map all)).
  { rewrite onlyOne_dedup_map. apply forallb_filter_id.
    apply forallb_forall. intros v Hv.
    apply in_map_iff in Hv as ([k v'] & <- & Hin). simpl.
    destruct (Hentries k v' Hin) as [_ ->]. reflexivity. }
  rewrite Hkept.
  assert (Hinj : forall l l' : list string, map KStr l = map KStr l' -> l = l').
  { induction l as [| x l IH]; intros [| y l'] E; simpl in E;
      try discriminate; [reflexivity |].
    injection E as -> E. f_equal. apply IH. exact E. }
  apply Hinj. rewrite <- Hkeys.
  unfold dedup_map. rewrite new_Map_key_order, (string_id_entries all Hall).
  rewrite map_map. simpl. rewrite <- (map_map id_string KStr).
  apply first_occurrences_map. intros x y E. congruence.
Qed.

Lemma searchMealsByFirstLetter_first_occurrence_order_witness :
  exists out,
    fst (searchMealsByFirstLetter tart_service ["a"; "b"] start) = Returned (JArr out)
    /\ map id_string out = ["52893"; "52768"; "52767"].
Proof.
  apply (searchMealsByFirstLetter_first_occurrence_order tart_service ["a"; "b"] start).
  reflexivity.
Defined.

Lemma partials_all_failed (net : network) (letters : list string) :
  forall n,
    (forall i letter, letters !! i = Some letter ->
       call_fails (respond net (n + i) (SearchByLetter (charAt0 letter))) = true) ->
    flat (partials net n letters) = [].
Proof.
  induction letters as [| letter rest IH]; intros n H; [reflexivity |].
  simpl. rewrite (IH (S n)).
  - specialize (H 0%nat letter eq_refl). rewrite Nat.add_0_r in H.
    rewrite (letter_result_failed _ H). reflexivity.
  - intros i l Hl. replace (S n + i)%nat with (n + S i)%nat by lia.
    apply H. exact Hl.
Qed.

(** X14. When every call of the fan-out fails, the search still returns,
    and what it returns is the empty list: an outage of the service looks
    like a search without results. *)
Theorem searchMealsByFirstLetter_all_calls_failed (net : network)
    (letters : list string) (w : world) :
  (forall i letter, letters !! i = Some letter ->
     call_fails (respond net (fetches w + i) (SearchByLetter (charAt0 letter))) = true) ->
  fst (searchMealsByFirstLetter net letters w) = Returned (JArr []).
Proof.
  intros H. rewrite searchMealsByFirstLetter_run.
  rewrite partials_all_failed; [reflexivity | exact H].
Qed.

Lemma searchMealsByFirstLetter_all_calls_failed_witness :
  fst (searchMealsByFirstLetter always_down ["a"; "b"; "c"] start) = Returned (JArr []).
Proof.
  apply (searchMealsByFirstLetter_all_calls_failed always_down ["a"; "b"; "c"] start).
  intros i letter _. reflexivity.
Defined.
